(** * Filament scene preparation ([filament/src/Scene.cpp])

    A shallow embedding of [FScene::prepare], [FScene::prepareLights],
    [FScene::setSkybox] and [FScene::computeBounds], and the properties of the
    scene-preparation specification established (or refuted) on it.

    Conventions of the embedding:
    - [float] scalars are idealised as real numbers: no rounding, no NaN, no
      infinities.  Comparisons are the total order of the reals.  Where the
      idealisation decides a property (the length of a normalised direction),
      the computation is evaluated in IEEE binary32 as well ([binary32]).
    - [size_t] values are integers in [Z]; where the source does unsigned
      arithmetic that may wrap, the wrap-around is written out ([wrap]).
    - C++ undefined behaviour (an out-of-bounds array access, an unchecked
      append without headroom) and a failed [assert] are explicit results of
      the [outcome] type.
    - The entity set is a finite set; a range-for over it visits some
      enumeration of the set, which is an explicit argument ([order]). *)

From Stdlib Require Import ZArith List Lia Bool.
From Stdlib Require Import Reals Lra Psatz.
From Stdlib Require Import Sorting.Permutation Sorting.Sorted.
From stdpp Require Import base gmap sets list.
From Stdlib Require Floats.SpecFloat.

Set Warnings "-clear-no-such-hyp".

(* ================================================================== *)
(** * Results of fallible code *)
(* ================================================================== *)

Inductive outcome (A : Type) : Type :=
| Ok (a : A)
| Undefined          (* C++ undefined behaviour was executed *)
| AssertionFailure.  (* an [assert] evaluated to false *)

Arguments Ok {A} a.
Arguments Undefined {A}.
Arguments AssertionFailure {A}.

#[global] Instance outcome_ret : MRet outcome := fun A a => Ok a.
#[global] Instance outcome_bind : MBind outcome := fun A B f m =>
  match m with
  | Ok a => f a
  | Undefined => Undefined
  | AssertionFailure => AssertionFailure
  end.

(** [assert(b)] of <cassert>. *)
Definition cpp_assert (b : bool) : outcome unit :=
  if b then Ok tt else AssertionFailure.

(** Monadic left fold: a range-for whose body may fail. *)
Fixpoint foldM {A S : Type} (body : A -> S -> outcome S) (l : list A) (s : S)
  : outcome S :=
  match l with
  | [] => Ok s
  | a :: l' => s' ← body a s; foldM body l' s'
  end.

(* ================================================================== *)
(** * Vector and matrix arithmetic (namespace [math]) *)
(* ================================================================== *)

(** The vector library ([math::float3], [math::mat4f], ...) is declared
    outside [Scene.cpp]; its operations are modelled here by their textbook
    definitions over the reals. *)
Module math.
Local Open Scope R_scope.

Definition float := R.
Bind Scope R_scope with float.

Record float3 := mkFloat3 { x3 : float; y3 : float; z3 : float }.
Record float4 := mkFloat4 { x4 : float; y4 : float; z4 : float; w4 : float }.

(** Matrices are column-major, as in the [math] library: [c0], [c1], ... are
    the columns. *)
Record mat3f := mkMat3 { m3c0 : float3; m3c1 : float3; m3c2 : float3 }.
Record mat4f :=
  mkMat4 { m4c0 : float4; m4c1 : float4; m4c2 : float4; m4c3 : float4 }.

Definition zero3 : float3 := mkFloat3 0 0 0.
Definition zero4 : float4 := mkFloat4 0 0 0 0.

Definition xyz (v : float4) : float3 := mkFloat3 (x4 v) (y4 v) (z4 v).
Definition float4_of (v : float3) (w : float) : float4 :=
  mkFloat4 (x3 v) (y3 v) (z3 v) w.

Definition add3 (a b : float3) : float3 :=
  mkFloat3 (x3 a + x3 b) (y3 a + y3 b) (z3 a + z3 b).
Definition sub3 (a b : float3) : float3 :=
  mkFloat3 (x3 a - x3 b) (y3 a - y3 b) (z3 a - z3 b).
Definition scale3 (s : float) (a : float3) : float3 :=
  mkFloat3 (s * x3 a) (s * y3 a) (s * z3 a).
Definition dot3 (a b : float3) : float :=
  x3 a * x3 b + y3 a * y3 b + z3 a * z3 b.

(** The comparisons [a >= b] and [a < b] on [float], as booleans. *)
Definition float_ge (a b : float) : bool := if Rge_dec a b then true else false.
Definition float_lt (a b : float) : bool := if Rlt_dec a b then true else false.

(** Modelled from the spec: [length] is declared in the vector library,
    outside [Scene.cpp].  "|camera - lightCenter|": the Euclidean norm. *)
Definition length3 (v : float3) : float := sqrt (dot3 v v).
(** Modelled from the spec: [normalize] is declared in the vector library,
    outside [Scene.cpp].  "normalized": the vector scaled by the inverse of
    its length. *)
Definition normalize (v : float3) : float3 := scale3 (1 / length3 v) v.

(** Modelled from the spec: [min] and [max] on vectors are declared in the
    vector library, outside [Scene.cpp].  "axis-aligned box union": the
    componentwise minimum and maximum. *)
Definition min3 (a b : float3) : float3 :=
  mkFloat3 (Rmin (x3 a) (x3 b)) (Rmin (y3 a) (y3 b)) (Rmin (z3 a) (z3 b)).
Definition max3 (a b : float3) : float3 :=
  mkFloat3 (Rmax (x3 a) (x3 b)) (Rmax (y3 a) (y3 b)) (Rmax (z3 a) (z3 b)).
Definition abs3 (a : float3) : float3 :=
  mkFloat3 (Rabs (x3 a)) (Rabs (y3 a)) (Rabs (z3 a)).

(** Modelled from the spec: [operator*] on matrices and vectors is declared
    in the vector library, outside [Scene.cpp].  "transform × local position":
    the matrix applied to a column vector. *)
Definition mulv3 (m : mat3f) (v : float3) : float3 :=
  add3 (add3 (scale3 (x3 v) (m3c0 m)) (scale3 (y3 v) (m3c1 m)))
       (scale3 (z3 v) (m3c2 m)).

Definition add4 (a b : float4) : float4 :=
  mkFloat4 (x4 a + x4 b) (y4 a + y4 b) (z4 a + z4 b) (w4 a + w4 b).
Definition scale4 (s : float) (a : float4) : float4 :=
  mkFloat4 (s * x4 a) (s * y4 a) (s * z4 a) (s * w4 a).

Definition mulv4 (m : mat4f) (v : float4) : float4 :=
  add4 (add4 (add4 (scale4 (x4 v) (m4c0 m)) (scale4 (y4 v) (m4c1 m)))
             (scale4 (z4 v) (m4c2 m)))
       (scale4 (w4 v) (m4c3 m)).

(** Modelled from the spec: [operator*] on two matrices is declared in the
    vector library, outside [Scene.cpp].  "worldOriginTransform × entity's
    resolved world transform": the columns of [a * b] are [a] applied to the
    columns of [b]. *)
Definition mulm4 (a b : mat4f) : mat4f :=
  mkMat4 (mulv4 a (m4c0 b)) (mulv4 a (m4c1 b))
         (mulv4 a (m4c2 b)) (mulv4 a (m4c3 b)).

Definition identity4 : mat4f :=
  mkMat4 (mkFloat4 1 0 0 0) (mkFloat4 0 1 0 0)
         (mkFloat4 0 0 1 0) (mkFloat4 0 0 0 1).

(** Modelled from the spec: [upperLeft] is declared in the vector library,
    outside [Scene.cpp].  "the transform's upper-left 3×3 submatrix". *)
Definition upperLeft (m : mat4f) : mat3f :=
  mkMat3 (xyz (m4c0 m)) (xyz (m4c1 m)) (xyz (m4c2 m)).

(** Modelled from the spec: [transpose] is declared in the vector library,
    outside [Scene.cpp].  "inverse-transpose": rows and columns exchanged. *)
Definition transpose (m : mat3f) : mat3f :=
  mkMat3 (mkFloat3 (x3 (m3c0 m)) (x3 (m3c1 m)) (x3 (m3c2 m)))
         (mkFloat3 (y3 (m3c0 m)) (y3 (m3c1 m)) (y3 (m3c2 m)))
         (mkFloat3 (z3 (m3c0 m)) (z3 (m3c1 m)) (z3 (m3c2 m))).

Definition cross3 (a b : float3) : float3 :=
  mkFloat3 (y3 a * z3 b - z3 a * y3 b)
           (z3 a * x3 b - x3 a * z3 b)
           (x3 a * y3 b - y3 a * x3 b).

Definition det3 (m : mat3f) : float :=
  dot3 (m3c0 m) (cross3 (m3c1 m) (m3c2 m)).

(** Modelled from the spec: [inverse] is declared in the vector library,
    outside [Scene.cpp].  "inverse-transpose": the adjugate divided by the
    determinant; the rows of the inverse are the cross products of the columns
    of [m], scaled. *)
Definition inverse (m : mat3f) : mat3f :=
  transpose
    (mkMat3 (scale3 (1 / det3 m) (cross3 (m3c1 m) (m3c2 m)))
            (scale3 (1 / det3 m) (cross3 (m3c2 m) (m3c0 m)))
            (scale3 (1 / det3 m) (cross3 (m3c0 m) (m3c1 m)))).

(** [Box]: centre and half extent; [Aabb]: the two corners. *)
Record Box := mkBox { center : float3; halfExtent : float3 }.
Record Aabb := mkAabb { aabb_min : float3; aabb_max : float3 }.

Definition abs_m3 (m : mat3f) : mat3f :=
  mkMat3 (abs3 (m3c0 m)) (abs3 (m3c1 m)) (abs3 (m3c2 m)).

(** Modelled from the spec: [rigidTransform] is declared outside
    [Scene.cpp].  "new center/half-extent computed via the matrix's
    absolute-value rotation applied to the half-extent, translated by the
    transformed center". *)
Definition rigidTransform (box : Box) (m : mat4f) : Box :=
  mkBox (xyz (mulv4 m (float4_of (center box) 1)))
        (mulv3 (abs_m3 (upperLeft m)) (halfExtent box)).

End math.
Export math.

(* ================================================================== *)
(** * Integers of the source *)
(* ================================================================== *)

(** [size_t]: 64-bit unsigned; [wrap] is the reduction every unsigned
    operation applies to its mathematical result. *)
Definition SIZE_BITS : Z := 64.
Definition wrap (z : Z) : Z := z mod 2 ^ SIZE_BITS.

(** Entities and component instances are opaque integer handles; the handle
    0 is the null instance ([operator bool] is [!= 0]). *)
Abbreviation Entity := Z (only parsing).
Abbreviation Instance := Z (only parsing).

Definition valid (i : Instance) : bool := negb (i =? 0)%Z.

(* ================================================================== *)
(** * Structure-of-arrays containers *)
(* ================================================================== *)

(** The value a default-initialised ([{}]) row or field holds. *)
Class ZeroInit (A : Type) := zero_init : A.

#[global] Instance zero_Z : ZeroInit Z := 0%Z.
#[global] Instance zero_float3 : ZeroInit float3 := zero3.
#[global] Instance zero_float4 : ZeroInit float4 := zero4.

Module SoA.
Section container.
Context {Row : Type} `{ZeroInit Row}.

(** All columns have the same logical length, so the container is a list of
    rows together with the size of the backing storage. *)
Record t := mk { rows : list Row; capacity : Z }.

Definition size (s : t) : Z := Z.of_nat (length (rows s)).

(** Modelled from the spec: [StructureOfArrays::clear] is declared outside
    [Scene.cpp].  "resets logical length to zero without releasing
    storage". *)
Definition clear (s : t) : t := mk [] (capacity s).

(** Modelled from the spec: [StructureOfArrays::setCapacity] is declared
    outside [Scene.cpp].  "grows backing storage to hold at least [n]
    rows". *)
Definition setCapacity (n : Z) (s : t) : t := mk (rows s) (Z.max (capacity s) n).

(** Modelled from the spec: [StructureOfArrays::resize] is declared outside
    [Scene.cpp].  "truncates or zero-extends to exactly [n] rows". *)
Definition resize (n : Z) (s : t) : t :=
  mk (take (Z.to_nat n) (rows s)
        ++ replicate (Z.to_nat n - length (rows s)) zero_init)
     (Z.max (capacity s) n).

(** Modelled from the spec: [StructureOfArrays::push_back_unsafe] is
    declared outside [Scene.cpp].  "appends a fully-specified row and is only
    valid when capacity headroom is already guaranteed by the caller": without
    headroom the append writes past the storage. *)
Definition push_back_unsafe (r : Row) (s : t) : outcome t :=
  if (size s <? capacity s)%Z then Ok (mk (rows s ++ [r]) (capacity s))
  else Undefined.

(** [elementAt<Column>(i) = v]: a write through the returned reference;
    [upd] is the column update.  Outside the logical length the reference
    is dangling. *)
Definition elementAt_set (i : nat) (upd : Row -> Row) (s : t) : outcome t :=
  match rows s !! i with
  | Some r => Ok (mk (<[i := upd r]> (rows s)) (capacity s))
  | None => Undefined
  end.

End container.
Arguments t Row : clear implicits.
End SoA.

(* ================================================================== *)
(** * Collaborators: the engine's component managers *)
(* ================================================================== *)

(** [FRenderableManager::Visibility]: the two flags the scene reads. *)
Record Visibility := mkVisibility { castShadows : bool; receiveShadows : bool }.

#[global] Instance zero_Visibility : ZeroInit Visibility :=
  mkVisibility false false.

Record EntityManager := { isAlive : Entity -> bool }.

Record FRenderableManager := {
  rcm_getInstance : Entity -> Instance;
  getAABB : Instance -> Box;
  getVisibility : Instance -> Visibility;
  getUbh : Instance -> Z;
  getBonesUbh : Instance -> Z;
  getLayerMask : Instance -> Z
}.

Record FTransformManager := {
  tcm_getInstance : Entity -> Instance;
  getWorldTransform : Instance -> mat4f
}.

Record FLightManager := {
  lcm_getInstance : Entity -> Instance;
  isDirectionalLight : Instance -> bool;
  isPointLight : Instance -> bool;
  isIESLight : Instance -> bool;
  getIntensity : Instance -> float;
  getColor : Instance -> float3;
  getLocalDirection : Instance -> float3;
  getLocalPosition : Instance -> float3;
  getRadius : Instance -> float;
  getSquaredFalloffInv : Instance -> float;
  getSpotParams_scaleOffset : Instance -> float * float
}.

Record FEngine := {
  getEntityManager : EntityManager;
  getRenderableManager : FRenderableManager;
  getTransformManager : FTransformManager;
  getLightManager : FLightManager
}.

(* ================================================================== *)
(** * The scene's data *)
(* ================================================================== *)

(** One row of [FScene::RenderableSoa], in the column order of the
    [push_back_unsafe] call of [prepare].  The columns [Scene.cpp] does not
    name are named after the data model of the specification: the handles of
    the two uniform blocks, "a summed-primitive-count slot" and "two
    reserved/zeroed slots used by downstream stages". *)
Record RenderableRow := mkRenderableRow {
  RENDERABLE_INSTANCE : Instance;
  WORLD_TRANSFORM : mat4f;
  VISIBILITY_STATE : Visibility;
  UBH : Z;
  BONES_UBH : Z;
  WORLD_AABB_CENTER : float3;
  SUMMED_PRIMITIVE_COUNT : Z;
  LAYERS : Z;
  WORLD_AABB_EXTENT : float3;
  RESERVED_0 : Z;
  RESERVED_1 : Z
}.

(** One row of [FScene::LightSoa]: position and radius, direction, light
    instance, and the reserved visibility slot. *)
Record LightRow := mkLightRow {
  POSITION_RADIUS : float4;
  DIRECTION : float3;
  LIGHT_INSTANCE : Instance;
  VISIBILITY : Z
}.

#[global] Instance zero_mat4f : ZeroInit mat4f :=
  mkMat4 zero4 zero4 zero4 zero4.
#[global] Instance zero_RenderableRow : ZeroInit RenderableRow :=
  mkRenderableRow 0 zero_init zero_init 0 0 zero3 0 0 zero3 0 0.
#[global] Instance zero_LightRow : ZeroInit LightRow :=
  mkLightRow zero4 zero3 0 0.

(** [GpuLightBuffer::LightParameters]. *)
Record LightParameters := mkLightParameters {
  positionFalloff : float4;
  colorIntensity : float4;
  directionIES : float4;
  spotScaleOffset : float4
}.

#[global] Instance zero_LightParameters : ZeroInit LightParameters :=
  mkLightParameters zero4 zero4 zero4 zero4.

(** What the GPU light buffer is asked to do, in the order it is asked. *)
Inductive GpuEvent :=
| SlotWrite (index : Z)
| Invalidate (offset count : Z)
| Commit.

(** Modelled from the spec: [GpuLightBuffer] is declared outside
    [Scene.cpp].  "a bounded-capacity device-visible array of packed light
    parameter records, with per-slot write and a single commit/invalidate
    operation": [writeSlot(index, parameters)],
    [markDirty(rangeStart, rangeLength)], [commit()].  [mLights] holds the
    slots, [trace] records the requests. *)
Record GpuLightBuffer := mkGpu {
  mLights : gmap Z LightParameters;
  trace : list GpuEvent
}.

Definition getLightParameters (g : GpuLightBuffer) (index : Z) : LightParameters :=
  default zero_init (mLights g !! index).

Definition setLightParameters (index : Z) (lp : LightParameters)
    (g : GpuLightBuffer) : GpuLightBuffer :=
  mkGpu (<[index := lp]> (mLights g)) (trace g ++ [SlotWrite index]).

Definition invalidate (offset count : Z) (g : GpuLightBuffer) : GpuLightBuffer :=
  mkGpu (mLights g) (trace g ++ [Invalidate offset count]).

Definition commit (g : GpuLightBuffer) : GpuLightBuffer :=
  mkGpu (mLights g) (trace g ++ [Commit]).

Record FSkybox := { getEntity : Entity }.

Record CameraInfo := { getPosition : float3 }.

Record FScene := mkScene {
  mEntities : gset Z;
  mRenderableData : SoA.t RenderableRow;
  mLightData : SoA.t LightRow;
  mSkybox : option FSkybox;
  mGpuLightData : GpuLightBuffer
}.

(** Modelled from the spec: [DIRECTIONAL_LIGHTS_COUNT] is declared in
    [Scene.h].  "Row 0 is permanently reserved for the directional light (at
    most one is modeled)". *)
Definition DIRECTIONAL_LIGHTS_COUNT : Z := 1.

(* ================================================================== *)
(** * [FScene::prepare] *)
(* ================================================================== *)

Definition set_POSITION_RADIUS (v : float4) (r : LightRow) : LightRow :=
  mkLightRow v (DIRECTION r) (LIGHT_INSTANCE r) (VISIBILITY r).
Definition set_DIRECTION (v : float3) (r : LightRow) : LightRow :=
  mkLightRow (POSITION_RADIUS r) v (LIGHT_INSTANCE r) (VISIBILITY r).
Definition set_LIGHT_INSTANCE (v : Instance) (r : LightRow) : LightRow :=
  mkLightRow (POSITION_RADIUS r) (DIRECTION r) v (VISIBILITY r).
Definition set_VISIBILITY (v : Z) (r : LightRow) : LightRow :=
  mkLightRow (POSITION_RADIUS r) (DIRECTION r) (LIGHT_INSTANCE r) v.

(** Lines 71-75: the capacity the two containers are sized to. *)
Definition capacity_bound (entities_size : Z) : Z :=
  let capacity := entities_size in
  let capacity := Z.land (wrap (capacity + 0xF)) (wrap (Z.lnot 0xF)) in
  let capacity := wrap (capacity + 1) in
  capacity.

(** Lines 77-87: clear both containers, grow them to [capacity], reserve the
    directional rows. *)
Definition prepare_sizing (capacity : Z)
    (sceneData : SoA.t RenderableRow) (lightData : SoA.t LightRow)
  : SoA.t RenderableRow * SoA.t LightRow :=
  let sceneData := SoA.clear sceneData in
  let sceneData :=
    if (SoA.capacity sceneData <? capacity)%Z
    then SoA.setCapacity capacity sceneData else sceneData in
  let lightData := SoA.clear lightData in
  let lightData :=
    if (SoA.capacity lightData <? capacity)%Z
    then SoA.setCapacity capacity lightData else lightData in
  let lightData := SoA.resize DIRECTIONAL_LIGHTS_COUNT lightData in
  (sceneData, lightData).

(** [normalize(transpose(inverse(worldTransform.upperLeft())) * d)]. *)
Definition world_direction (worldTransform : mat4f) (d : float3) : float3 :=
  normalize (mulv3 (transpose (inverse (upperLeft worldTransform))) d).

(** Lines 143-151: the row appended for a local light. *)
Definition local_light_row (lcm : FLightManager) (worldTransform : mat4f)
    (li : Instance) : LightRow :=
  let p := mulv4 worldTransform (float4_of (getLocalPosition lcm li) 1) in
  let d := zero3 in
  let d :=
    if negb (isPointLight lcm li) || isIESLight lcm li
    then world_direction worldTransform (getLocalDirection lcm li)
    else d in
  mkLightRow (float4_of (xyz p) (getRadius lcm li)) d li zero_init.

(** Lines 112-125: the row appended for a renderable. *)
Definition renderable_row (rcm : FRenderableManager) (worldTransform : mat4f)
    (ri : Instance) : RenderableRow :=
  let worldAABB := rigidTransform (getAABB rcm ri) worldTransform in
  mkRenderableRow ri worldTransform (getVisibility rcm ri) (getUbh rcm ri)
    (getBonesUbh rcm ri) (center worldAABB) 0 (getLayerMask rcm ri)
    (halfExtent worldAABB) zero_init zero_init.

(** Lines 93-154: the body of the loop over the entities.  [maxIntensity] is
    the local declared before the loop; the body reads it and never assigns
    it. *)
Definition prepare_entity (engine : FEngine) (worldOriginTansform : mat4f)
    (maxIntensity : float) (e : Entity)
    (st : SoA.t RenderableRow * SoA.t LightRow)
  : outcome (SoA.t RenderableRow * SoA.t LightRow) :=
  let em := getEntityManager engine in
  let rcm := getRenderableManager engine in
  let tcm := getTransformManager engine in
  let lcm := getLightManager engine in
  let '(sceneData, lightData) := st in
  if negb (isAlive em e) then Ok st else
  let ri := rcm_getInstance rcm e in
  let li := lcm_getInstance lcm e in
  if negb (valid ri) && negb (valid li) then Ok st else
  let ti := tcm_getInstance tcm e in
  let worldTransform := mulm4 worldOriginTansform (getWorldTransform tcm ti) in
  sceneData ←
    (if valid ri && valid ti
     then SoA.push_back_unsafe (renderable_row rcm worldTransform ri) sceneData
     else Ok sceneData);
  lightData ←
    (if valid li then
       if isDirectionalLight lcm li then
         if float_ge (getIntensity lcm li) maxIntensity then
           let d := getLocalDirection lcm li in
           let d := world_direction worldTransform d in
           lightData ← SoA.elementAt_set 0 (set_POSITION_RADIUS zero_init) lightData;
           lightData ← SoA.elementAt_set 0 (set_DIRECTION d) lightData;
           lightData ← SoA.elementAt_set 0 (set_LIGHT_INSTANCE li) lightData;
           SoA.elementAt_set 0 (set_VISIBILITY zero_init) lightData
         else Ok lightData
       else
         SoA.push_back_unsafe (local_light_row lcm worldTransform li) lightData
     else Ok lightData);
  Ok (sceneData, lightData).

(** [FScene::prepare].  [order] is the sequence in which the range-for visits
    [mEntities]. *)
Definition prepare (engine : FEngine) (order : list Entity)
    (worldOriginTansform : mat4f) (s : FScene) : outcome FScene :=
  let capacity := capacity_bound (Z.of_nat (size (mEntities s))) in
  let '(sceneData, lightData) :=
    prepare_sizing capacity (mRenderableData s) (mLightData s) in
  let maxIntensity := 0%R in
  st ← foldM (prepare_entity engine worldOriginTansform maxIntensity) order
         (sceneData, lightData);
  Ok (mkScene (mEntities s) (fst st) (snd st) (mSkybox s) (mGpuLightData s)).

(* ================================================================== *)
(** * [FScene::prepareLights] *)
(* ================================================================== *)

(** A local [float] array: its cells are uninitialised until stored to, and
    an access outside its bounds is undefined behaviour. *)
Definition array_new (len : Z) : list (option float) :=
  replicate (Z.to_nat len) None.

Definition array_store (a : list (option float)) (i : Z) (v : float)
  : outcome (list (option float)) :=
  if (0 <=? i)%Z && (i <? Z.of_nat (length a))%Z
  then Ok (<[Z.to_nat i := Some v]> a)
  else Undefined.

Definition array_load (a : list (option float)) (i : Z) : outcome float :=
  if (0 <=? i)%Z then
    match a !! Z.to_nat i with
    | Some (Some v) => Ok v
    | _ => Undefined
    end
  else Undefined.

(** Line 199: distance from the camera to the light's sphere of influence. *)
Definition boundary_distance (position : float3) (s : float4) : float :=
  Rmax 0 (length3 (sub3 position (xyz s)) - w4 s).

(** Lines 195-200: [rows] are the rows from index [i] on. *)
Fixpoint compute_distances (position : float3) (rows : list LightRow) (i : Z)
    (distances : list (option float)) : outcome (list (option float)) :=
  match rows with
  | [] => Ok distances
  | r :: rows' =>
      let s := POSITION_RADIUS r in
      distances ← array_store distances i (boundary_distance position s);
      compute_distances position rows' (i + 1) distances
  end.

(** What the [Zip2Iterator] range [b + i, b + size) dereferences to: each row
    paired with the cell of [distances] at the same index. *)
Fixpoint zip2 (rows : list LightRow) (i : Z) (distances : list (option float))
  : outcome (list (LightRow * float)) :=
  match rows with
  | [] => Ok []
  | r :: rows' =>
      d ← array_load distances i;
      rest ← zip2 rows' (i + 1) distances;
      Ok ((r, d) :: rest)
  end.

(** Gpu slot written for row [i] (lines 216-222). *)
Definition write_light (lcm : FLightManager) (i : Z) (r : LightRow)
    (gpuLightData : GpuLightBuffer) : GpuLightBuffer :=
  let gpuIndex := (i - DIRECTIONAL_LIGHTS_COUNT)%Z in
  let lp := getLightParameters gpuLightData gpuIndex in
  let li := LIGHT_INSTANCE r in
  let so := getSpotParams_scaleOffset lcm li in
  let lp :=
    mkLightParameters
      (float4_of (xyz (POSITION_RADIUS r)) (getSquaredFalloffInv lcm li))
      (float4_of (getColor lcm li) (getIntensity lcm li))
      (float4_of (DIRECTION r) 0)
      (mkFloat4 (fst so) (snd so)
                (z4 (spotScaleOffset lp)) (w4 (spotScaleOffset lp))) in
  setLightParameters gpuIndex lp gpuLightData.

(** Lines 215-223: [rows] are the rows from index [i] on. *)
Fixpoint fill_gpu (lcm : FLightManager) (rows : list LightRow) (i : Z)
    (gpuLightData : GpuLightBuffer) : GpuLightBuffer :=
  match rows with
  | [] => gpuLightData
  | r :: rows' => fill_gpu lcm rows' (i + 1) (write_light lcm i r gpuLightData)
  end.

Section PrepareLights.

(** [CONFIG_MAX_LIGHT_COUNT] is a compile-time constant declared outside
    [Scene.cpp]. *)
Variable CONFIG_MAX_LIGHT_COUNT : Z.

(** [std::sort] with the comparator [lhs.second < rhs.second].  The standard
    fixes its result only up to the order of equal keys; any function meeting
    the contract [std_sort_contract] below may stand for it. *)
Variable std_sort : list (LightRow * float) -> list (LightRow * float).

(** Lines 203-205: sort the local-light rows by their distance. *)
Definition sort_lights (lightData : SoA.t LightRow)
    (distances : list (option float)) : outcome (SoA.t LightRow) :=
  let n := Z.to_nat DIRECTIONAL_LIGHTS_COUNT in
  b ← zip2 (drop n (SoA.rows lightData)) DIRECTIONAL_LIGHTS_COUNT distances;
  Ok (SoA.mk (take n (SoA.rows lightData) ++ (std_sort b).*1)
             (SoA.capacity lightData)).

(** Lines 190-208, with the length of the local array [distances] as a
    parameter. *)
Definition truncate_lights (distances_len : Z) (camera : CameraInfo)
    (lightData : SoA.t LightRow) : outcome (SoA.t LightRow) :=
  if (SoA.size lightData >? CONFIG_MAX_LIGHT_COUNT + DIRECTIONAL_LIGHTS_COUNT)%Z
  then
    let position := getPosition camera in
    let distances := array_new distances_len in
    distances ←
      compute_distances position
        (drop (Z.to_nat DIRECTIONAL_LIGHTS_COUNT) (SoA.rows lightData))
        DIRECTIONAL_LIGHTS_COUNT distances;
    lightData ← sort_lights lightData distances;
    Ok (SoA.resize
          (Z.min (SoA.size lightData)
                 (CONFIG_MAX_LIGHT_COUNT + DIRECTIONAL_LIGHTS_COUNT))
          lightData)
  else Ok lightData.

(** Lines 212-226: pack the rows into the GPU buffer, invalidate, commit. *)
Definition commit_lights (lcm : FLightManager) (lightData : SoA.t LightRow)
    (gpuLightData : GpuLightBuffer) : GpuLightBuffer :=
  let gpuLightData :=
    fill_gpu lcm (drop (Z.to_nat DIRECTIONAL_LIGHTS_COUNT) (SoA.rows lightData))
      DIRECTIONAL_LIGHTS_COUNT gpuLightData in
  let gpuLightData := invalidate 0 (SoA.size lightData) gpuLightData in
  commit gpuLightData.

Definition prepareLights_sized (distances_len : Z) (engine : FEngine)
    (camera : CameraInfo) (s : FScene) : outcome FScene :=
  let lcm := getLightManager engine in
  let gpuLightData := mGpuLightData s in
  let lightData := mLightData s in
  lightData ← truncate_lights distances_len camera lightData;
  _ ← cpp_assert (SoA.size lightData <=? CONFIG_MAX_LIGHT_COUNT + 1)%Z;
  Ok (mkScene (mEntities s) (mRenderableData s) lightData (mSkybox s)
        (commit_lights lcm lightData gpuLightData)).

(** [FScene::prepareLights]: line 193 declares
    [float distances[CONFIG_MAX_LIGHT_COUNT]]. *)
Definition prepareLights : FEngine -> CameraInfo -> FScene -> outcome FScene :=
  prepareLights_sized CONFIG_MAX_LIGHT_COUNT.

End PrepareLights.

(* ================================================================== *)
(** * Scene membership and the skybox *)
(* ================================================================== *)

Definition with_entities (es : gset Z) (s : FScene) : FScene :=
  mkScene es (mRenderableData s) (mLightData s) (mSkybox s) (mGpuLightData s).

(** [mEntities.insert(entity)]. *)
Definition addEntity (entity : Entity) (s : FScene) : FScene :=
  with_entities ({[entity]} ∪ mEntities s) s.

(** [mEntities.erase(entity)]. *)
Definition remove (entity : Entity) (s : FScene) : FScene :=
  with_entities (mEntities s ∖ {[entity]}) s.

(** [FScene::setSkybox]; a null pointer is [None]. *)
Definition setSkybox (skybox : option FSkybox) (s : FScene) : FScene :=
  (* std::swap(mSkybox, skybox) *)
  let '(s, skybox) :=
    (mkScene (mEntities s) (mRenderableData s) (mLightData s) skybox
       (mGpuLightData s),
     mSkybox s) in
  let s := match skybox with
           | Some sb => remove (getEntity sb) s
           | None => s
           end in
  match mSkybox s with
  | Some sb => addEntity (getEntity sb) s
  | None => s
  end.

(* ================================================================== *)
(** * [FScene::computeBounds] *)
(* ================================================================== *)

(** Lines 285-296: the loop body for one row. *)
Definition computeBounds_row (visibleLayers : Z) (boxes : Aabb * Aabb)
    (r : RenderableRow) : Aabb * Aabb :=
  let '(castersBox, receiversBox) := boxes in
  if negb (Z.land (LAYERS r) visibleLayers =? 0)%Z then
    let aabb := mkAabb (sub3 (WORLD_AABB_CENTER r) (WORLD_AABB_EXTENT r))
                       (add3 (WORLD_AABB_CENTER r) (WORLD_AABB_EXTENT r)) in
    let castersBox :=
      if castShadows (VISIBILITY_STATE r)
      then mkAabb (min3 (aabb_min castersBox) (aabb_min aabb))
                  (max3 (aabb_max castersBox) (aabb_max aabb))
      else castersBox in
    let receiversBox :=
      if receiveShadows (VISIBILITY_STATE r)
      then mkAabb (min3 (aabb_min receiversBox) (aabb_min aabb))
                  (max3 (aabb_max receiversBox) (aabb_max aabb))
      else receiversBox in
    (castersBox, receiversBox)
  else boxes.

(** The loop over the rows [0 .. size). *)
Definition computeBounds_rows (visibleLayers : Z) (rows : list RenderableRow)
    (boxes : Aabb * Aabb) : Aabb * Aabb :=
  fold_left (computeBounds_row visibleLayers) rows boxes.

(** [FScene::computeBounds]: the two boxes are passed by reference and
    returned updated. *)
Definition computeBounds (s : FScene) (castersBox receiversBox : Aabb)
    (visibleLayers : Z) : Aabb * Aabb :=
  computeBounds_rows visibleLayers (SoA.rows (mRenderableData s))
    (castersBox, receiversBox).

(* ================================================================== *)
(** * Predicates of the specification *)
(* ================================================================== *)

(** The entity a (possibly null) skybox pointer contributes to the scene. *)
Definition skybox_entity (skybox : option FSkybox) : gset Z :=
  match skybox with
  | Some sb => {[getEntity sb]}
  | None => ∅
  end.

(** "At most one skybox entity is ever a scene member": among the entities
    [skyboxes] that belong to skyboxes, only the one of the registered skybox
    is a member of the scene. *)
Definition only_registered_skybox (skyboxes : gset Z) (s : FScene) : Prop :=
  mEntities s ∩ skyboxes ⊆ skybox_entity (mSkybox s).

(* ================================================================== *)
(** * Concrete scenes *)
(* ================================================================== *)

Definition gpu_empty : GpuLightBuffer := mkGpu ∅ [].

Definition scene_empty : FScene :=
  mkScene ∅ (SoA.mk [] 0) (SoA.mk [] 0) None gpu_empty.

Definition skybox_7 : FSkybox := {| getEntity := 7 |}.

(** A scene that already has entity 7 as a member and no skybox set. *)
Definition scene_with_7 : FScene := addEntity 7 scene_empty.

(* ================================================================== *)
(** * What [prepare] gathers, entity by entity *)
(* ================================================================== *)

(** The world transform [prepare] computes for an entity. *)
Definition entity_transform (engine : FEngine) (worldOriginTansform : mat4f)
    (e : Entity) : mat4f :=
  let tcm := getTransformManager engine in
  mulm4 worldOriginTansform (getWorldTransform tcm (tcm_getInstance tcm e)).

(** "alive entities that have both a renderable instance and a transform
    instance". *)
Definition has_renderable (engine : FEngine) (e : Entity) : bool :=
  isAlive (getEntityManager engine) e
  && valid (rcm_getInstance (getRenderableManager engine) e)
  && valid (tcm_getInstance (getTransformManager engine) e).

(** "alive entities that have a non-directional (local) light instance". *)
Definition has_local_light (engine : FEngine) (e : Entity) : bool :=
  isAlive (getEntityManager engine) e
  && valid (lcm_getInstance (getLightManager engine) e)
  && negb (isDirectionalLight (getLightManager engine)
             (lcm_getInstance (getLightManager engine) e)).

(** Alive entities carrying a directional light. *)
Definition has_directional_light (engine : FEngine) (e : Entity) : bool :=
  isAlive (getEntityManager engine) e
  && valid (lcm_getInstance (getLightManager engine) e)
  && isDirectionalLight (getLightManager engine)
       (lcm_getInstance (getLightManager engine) e).

Definition entity_renderable_row (engine : FEngine) (wot : mat4f) (e : Entity)
  : RenderableRow :=
  renderable_row (getRenderableManager engine) (entity_transform engine wot e)
    (rcm_getInstance (getRenderableManager engine) e).

Definition entity_light_row (engine : FEngine) (wot : mat4f) (e : Entity)
  : LightRow :=
  local_light_row (getLightManager engine) (entity_transform engine wot e)
    (lcm_getInstance (getLightManager engine) e).

(** The reserved row after a directional light has been written to it. *)
Definition entity_directional_row (engine : FEngine) (wot : mat4f) (e : Entity)
  : LightRow :=
  let lcm := getLightManager engine in
  mkLightRow zero_init
    (world_direction (entity_transform engine wot e)
       (getLocalDirection lcm (lcm_getInstance lcm e)))
    (lcm_getInstance lcm e) zero_init.

(** Does visiting [e] overwrite the reserved row? *)
Definition overwrites_directional (engine : FEngine) (maxIntensity : float)
    (e : Entity) : bool :=
  has_directional_light engine e
  && float_ge (getIntensity (getLightManager engine)
                 (lcm_getInstance (getLightManager engine) e))
              maxIntensity.

(** Row 0 after the loop has visited the entities of [order]. *)
Definition directional_after (engine : FEngine) (wot : mat4f)
    (maxIntensity : float) (order : list Entity) (row0 : LightRow) : LightRow :=
  fold_left
    (fun r e => if overwrites_directional engine maxIntensity e
                then entity_directional_row engine wot e else r)
    order row0.

(** An engine with four entities: 1 is an alive renderable with a transform,
    2 an alive point light, 3 a destroyed renderable, 4 an alive directional
    light. *)
Definition demo_box : Box := mkBox zero3 (mkFloat3 1 1 1).

Definition engine_demo : FEngine := {|
  getEntityManager := {| isAlive := fun e => negb (e =? 3)%Z |};
  getRenderableManager := {|
    rcm_getInstance := fun e => if (e =? 1)%Z || (e =? 3)%Z then e else 0%Z;
    getAABB := fun _ => demo_box;
    getVisibility := fun _ => mkVisibility true true;
    getUbh := fun i => i;
    getBonesUbh := fun _ => 0%Z;
    getLayerMask := fun _ => 1%Z |};
  getTransformManager := {|
    tcm_getInstance := fun e => e;
    getWorldTransform := fun _ => identity4 |};
  getLightManager := {|
    lcm_getInstance := fun e => if (e =? 2)%Z || (e =? 4)%Z then e else 0%Z;
    isDirectionalLight := fun i => (i =? 4)%Z;
    isPointLight := fun i => (i =? 2)%Z;
    isIESLight := fun _ => false;
    getIntensity := fun _ => 1%R;
    getColor := fun _ => mkFloat3 1 1 1;
    getLocalDirection := fun _ => mkFloat3 0 (-1) 0;
    getLocalPosition := fun _ => zero3;
    getRadius := fun _ => 1%R;
    getSquaredFalloffInv := fun _ => 1%R;
    getSpotParams_scaleOffset := fun _ => (1%R, 0%R) |}
|}.

Definition scene_demo : FScene :=
  addEntity 1 (addEntity 2 (addEntity 3 (addEntity 4 scene_empty))).

(** An engine with two alive directional lights: entity 1 of intensity 10 and
    entity 2 of intensity 5. *)
Definition engine_two_suns : FEngine := {|
  getEntityManager := {| isAlive := fun _ => true |};
  getRenderableManager := {|
    rcm_getInstance := fun _ => 0%Z;
    getAABB := fun _ => demo_box;
    getVisibility := fun _ => mkVisibility true true;
    getUbh := fun i => i;
    getBonesUbh := fun _ => 0%Z;
    getLayerMask := fun _ => 1%Z |};
  getTransformManager := {|
    tcm_getInstance := fun e => e;
    getWorldTransform := fun _ => identity4 |};
  getLightManager := {|
    lcm_getInstance := fun e => e;
    isDirectionalLight := fun _ => true;
    isPointLight := fun _ => false;
    isIESLight := fun _ => false;
    getIntensity := fun i => if (i =? 1)%Z then 10%R else 5%R;
    getColor := fun _ => mkFloat3 1 1 1;
    getLocalDirection := fun _ => mkFloat3 0 (-1) 0;
    getLocalPosition := fun _ => zero3;
    getRadius := fun _ => 1%R;
    getSquaredFalloffInv := fun _ => 1%R;
    getSpotParams_scaleOffset := fun _ => (1%R, 0%R) |}
|}.

Definition scene_two_suns : FScene := addEntity 1 (addEntity 2 scene_empty).


(* ================================================================== *)
(** * A sorting function meeting the contract of [std::sort] *)
(* ================================================================== *)

(** What [std::sort] with the comparator [lhs.second < rhs.second]
    guarantees of its result: a rearrangement of the input in which no
    element's key is smaller than the key of an element before it. *)
Definition ascending (l : list (LightRow * float)) : Prop :=
  StronglySorted (fun a b => (snd a <= snd b)%R) l.

Definition std_sort_contract
    (sort : list (LightRow * float) -> list (LightRow * float)) : Prop :=
  forall l, Permutation (sort l) l /\ ascending (sort l).

Fixpoint insert_by_distance (p : LightRow * float)
    (l : list (LightRow * float)) : list (LightRow * float) :=
  match l with
  | [] => [p]
  | q :: l' =>
      if float_lt (snd q) (snd p) then q :: insert_by_distance p l'
      else p :: q :: l'
  end.

Definition insertion_sort (l : list (LightRow * float))
  : list (LightRow * float) :=
  foldr insert_by_distance [] l.

(** A row with the key the loop of lines 195-200 computes for it. *)
Definition with_distance (position : float3) (r : LightRow) : LightRow * float :=
  (r, boundary_distance position (POSITION_RADIUS r)).

(* ================================================================== *)
(** * Concrete light tables *)
(* ================================================================== *)

(** A local light row at [(px, 0, 0)] with radius 0 and instance [li]. *)
Definition light_at (px : float) (li : Z) : LightRow :=
  mkLightRow (mkFloat4 px 0 0 0) zero3 li 0.

Definition scene_of_lights (rows : list LightRow) : FScene :=
  mkScene ∅ (SoA.mk [] 0) (SoA.mk rows (Z.of_nat (length rows))) None gpu_empty.

Definition camera_origin : CameraInfo := {| getPosition := zero3 |}.

(** The reserved row and three local lights. *)
Definition scene_three_lights : FScene :=
  scene_of_lights [zero_init; light_at 3 1; light_at 1 2; light_at 2 3].

(** The reserved row and two local lights. *)
Definition scene_two_lights : FScene :=
  scene_of_lights [zero_init; light_at 3 1; light_at 1 2].

(** Only the reserved row. *)
Definition scene_no_local_light : FScene := scene_of_lights [zero_init].

(** The reserved row and 257 local lights. *)
Definition scene_257_lights : FScene :=
  scene_of_lights (zero_init :: replicate 257 (light_at 1 1)).

(** Two renderable rows on layer 1 that cast and receive shadows. *)
Definition row_unit_box : RenderableRow :=
  mkRenderableRow 1 identity4 (mkVisibility true true) 0 0
    zero3 0 1 (mkFloat3 1 1 1) 0 0.

Definition row_far_box : RenderableRow :=
  mkRenderableRow 2 identity4 (mkVisibility true false) 0 0
    (mkFloat3 5 0 0) 0 1 (mkFloat3 1 2 3) 0 0.

Definition scene_of_renderables (rows : list RenderableRow) : FScene :=
  mkScene ∅ (SoA.mk rows (Z.of_nat (length rows))) (SoA.mk [zero_init] 1)
    None gpu_empty.

Definition box_at_origin : Aabb := mkAabb zero3 zero3.

(* ================================================================== *)
(** * [FScene::getRenderableCount] and [FScene::getLightCount] *)
(* ================================================================== *)

(** Lines 237-247.  [count] is a [size_t]; [order] is the sequence in which
    the range-for visits [mEntities]. *)
Definition getRenderableCount (engine : FEngine) (order : list Entity) : Z :=
  let em := getEntityManager engine in
  let rcm := getRenderableManager engine in
  let count := 0%Z in
  fold_left
    (fun count e =>
       wrap (count + (if isAlive em e && valid (rcm_getInstance rcm e)
                      then 1 else 0)))
    order count.

(** Lines 249-259. *)
Definition getLightCount (engine : FEngine) (order : list Entity) : Z :=
  let em := getEntityManager engine in
  let lcm := getLightManager engine in
  let count := 0%Z in
  fold_left
    (fun count e =>
       wrap (count + (if isAlive em e && valid (lcm_getInstance lcm e)
                      then 1 else 0)))
    order count.

(** Alive entities carrying a renderable component (with or without a
    transform). *)
Definition is_renderable (engine : FEngine) (e : Entity) : bool :=
  isAlive (getEntityManager engine) e
  && valid (rcm_getInstance (getRenderableManager engine) e).

(** Alive entities carrying a light component (directional or local). *)
Definition is_light (engine : FEngine) (e : Entity) : bool :=
  isAlive (getEntityManager engine) e
  && valid (lcm_getInstance (getLightManager engine) e).

(** Alive entities carrying a renderable component but no transform. *)
Definition is_renderable_without_transform (engine : FEngine) (e : Entity)
  : bool :=
  is_renderable engine e
  && negb (valid (tcm_getInstance (getTransformManager engine) e)).

(* ================================================================== *)
(** * [FScene::updateUBOs] *)
(* ================================================================== *)

(** Modelled from the spec: [utils::Range] is declared in [utils/Range.h].
    "a contiguous index range": the range-for visits [first], [first + 1],
    ... up to, not including, [last]. *)
Record Range := mkRange { range_first : Z; range_last : Z }.

Definition range_indices (r : Range) : list Z :=
  seqZ (range_first r) (range_last r - range_first r).

(** [elementAt<Column>(i)] as a read: [col] is the column.  The container
    stores [capacity] rows, of which the first [size] are its logical rows: a
    read at or past [capacity] leaves the storage.  What the storage holds
    between [size] and [capacity] is not modelled, and a read there is given no
    value either; the properties below rely on this only at or past
    [capacity]. *)
Definition elementAt_get {Row A : Type} (i : Z) (col : Row -> A)
    (s : SoA.t Row) : outcome A :=
  if (0 <=? i)%Z then
    match SoA.rows s !! Z.to_nat i with
    | Some r => Ok (col r)
    | None => Undefined
    end
  else Undefined.

(** Modelled from the spec: [FRenderableManager::updateLocalUBO] is declared
    outside [Scene.cpp].  "a write accessor to push a world transform into
    that object's uniform block": the store maps each renderable instance to
    the transform last pushed to its uniform block. *)
Definition updateLocalUBO (ri : Instance) (worldTransform : mat4f)
    (ubos : gmap Z mat4f) : gmap Z mat4f :=
  <[ri := worldTransform]> ubos.

(** Lines 157-164. *)
Definition updateUBOs (s : FScene) (visibleRenderables : Range)
    (ubos : gmap Z mat4f) : outcome (gmap Z mat4f) :=
  let sceneData := mRenderableData s in
  foldM
    (fun i ubos =>
       ri ← elementAt_get i RENDERABLE_INSTANCE sceneData;
       worldTransform ← elementAt_get i WORLD_TRANSFORM sceneData;
       Ok (updateLocalUBO ri worldTransform ubos))
    (range_indices visibleRenderables) ubos.

(** The uniform blocks after the rows [rows] have been pushed, one after the
    other. *)
Definition pushes (rows : list RenderableRow) (ubos : gmap Z mat4f)
  : gmap Z mat4f :=
  fold_left
    (fun m r => updateLocalUBO (RENDERABLE_INSTANCE r) (WORLD_TRANSFORM r) m)
    rows ubos.

(* ================================================================== *)
(** * Containment of boxes *)
(* ================================================================== *)

Definition le3 (a b : float3) : Prop :=
  (x3 a <= x3 b /\ y3 a <= y3 b /\ z3 a <= z3 b)%R.

(** [inner] lies within [outer]. *)
Definition aabb_within (inner outer : Aabb) : Prop :=
  le3 (aabb_min outer) (aabb_min inner) /\ le3 (aabb_max inner) (aabb_max outer).

(** The world box of a row, as line 286 builds it. *)
Definition row_aabb (r : RenderableRow) : Aabb :=
  mkAabb (sub3 (WORLD_AABB_CENTER r) (WORLD_AABB_EXTENT r))
         (add3 (WORLD_AABB_CENTER r) (WORLD_AABB_EXTENT r)).

(** Does the row pass the layer test of line 285? *)
Definition row_visible (visibleLayers : Z) (r : RenderableRow) : bool :=
  negb (Z.land (LAYERS r) visibleLayers =? 0)%Z.

(** The parameters lines 219-222 leave in a slot that held [old]. *)
Definition packed_light (lcm : FLightManager) (r : LightRow)
    (old : LightParameters) : LightParameters :=
  mkLightParameters
    (float4_of (xyz (POSITION_RADIUS r))
               (getSquaredFalloffInv lcm (LIGHT_INSTANCE r)))
    (float4_of (getColor lcm (LIGHT_INSTANCE r))
               (getIntensity lcm (LIGHT_INSTANCE r)))
    (float4_of (DIRECTION r) 0)
    (mkFloat4 (fst (getSpotParams_scaleOffset lcm (LIGHT_INSTANCE r)))
              (snd (getSpotParams_scaleOffset lcm (LIGHT_INSTANCE r)))
              (z4 (spotScaleOffset old)) (w4 (spotScaleOffset old))).

(* ================================================================== *)
(** * The direction of a light in IEEE binary32 arithmetic *)
(* ================================================================== *)

(** The C++ type [float] is IEEE binary32.  This module evaluates the
    direction computation of lines 133-135 and 144-149 in that arithmetic
    (24 bits of precision, largest exponent 128, round to nearest even), with
    the vector operations defined as in [math]. *)
Module binary32.

Definition f32 := SpecFloat.spec_float.

Definition prec : Z := 24.
Definition emax : Z := 128.

Definition add : f32 -> f32 -> f32 := SpecFloat.SFadd prec emax.
Definition sub : f32 -> f32 -> f32 := SpecFloat.SFsub prec emax.
Definition mul : f32 -> f32 -> f32 := SpecFloat.SFmul prec emax.
Definition div : f32 -> f32 -> f32 := SpecFloat.SFdiv prec emax.
Definition sqrt : f32 -> f32 := SpecFloat.SFsqrt prec emax.
(** [a == b] on floats: false when either side is NaN, true for [+0 == -0]. *)
Definition eqb : f32 -> f32 -> bool := SpecFloat.SFeqb.

Definition one : f32 := SpecFloat.SFone prec emax.

Definition is_nan (x : f32) : bool :=
  match x with SpecFloat.S754_nan => true | _ => false end.

Record vec3 := mkVec3 { vx : f32; vy : f32; vz : f32 }.
Record mat3 := mkMat3 { c0 : vec3; c1 : vec3; c2 : vec3 }.


Definition vadd (a b : vec3) : vec3 :=
  mkVec3 (add (vx a) (vx b)) (add (vy a) (vy b)) (add (vz a) (vz b)).
Definition vscale (s : f32) (a : vec3) : vec3 :=
  mkVec3 (mul s (vx a)) (mul s (vy a)) (mul s (vz a)).
Definition dot (a b : vec3) : f32 :=
  add (add (mul (vx a) (vx b)) (mul (vy a) (vy b))) (mul (vz a) (vz b)).
Definition cross (a b : vec3) : vec3 :=
  mkVec3 (sub (mul (vy a) (vz b)) (mul (vz a) (vy b)))
         (sub (mul (vz a) (vx b)) (mul (vx a) (vz b)))
         (sub (mul (vx a) (vy b)) (mul (vy a) (vx b))).

(** Modelled from the spec: [length] and [normalize] are declared in the
    vector library, outside [Scene.cpp].  "normalized": the vector scaled by
    the inverse of its Euclidean norm. *)
Definition length (v : vec3) : f32 := sqrt (dot v v).
Definition normalize (v : vec3) : vec3 := vscale (div one (length v)) v.

(** Modelled from the spec: [operator*] of a matrix and a vector is declared
    in the vector library, outside [Scene.cpp]: the matrix applied to a
    column vector. *)
Definition mulv (m : mat3) (v : vec3) : vec3 :=
  vadd (vadd (vscale (vx v) (c0 m)) (vscale (vy v) (c1 m)))
       (vscale (vz v) (c2 m)).

(** Modelled from the spec: [transpose] and [inverse] are declared in the
    vector library, outside [Scene.cpp].  "inverse-transpose": rows and
    columns exchanged; the adjugate divided by the determinant. *)
Definition transpose (m : mat3) : mat3 :=
  mkMat3 (mkVec3 (vx (c0 m)) (vx (c1 m)) (vx (c2 m)))
         (mkVec3 (vy (c0 m)) (vy (c1 m)) (vy (c2 m)))
         (mkVec3 (vz (c0 m)) (vz (c1 m)) (vz (c2 m))).

Definition det (m : mat3) : f32 := dot (c0 m) (cross (c1 m) (c2 m)).

Definition inverse (m : mat3) : mat3 :=
  transpose
    (mkMat3 (vscale (div one (det m)) (cross (c1 m) (c2 m)))
            (vscale (div one (det m)) (cross (c2 m) (c0 m)))
            (vscale (div one (det m)) (cross (c0 m) (c1 m)))).

(** [normalize(transpose(inverse(upperLeft)) * d)], lines 135 and 148. *)
Definition world_direction (upperLeft : mat3) (d : vec3) : vec3 :=
  normalize (mulv (transpose (inverse upperLeft)) d).



End binary32.

(* ================================================================== *)
(** * Properties of [computeBounds] *)
(* ================================================================== *)

Section ComputeBounds.
Local Open Scope R_scope.

Lemma Rmin_right_comm (a b c : R) : Rmin (Rmin a b) c = Rmin (Rmin a c) b.
Proof. rewrite <- !Rmin_assoc. f_equal. apply Rmin_comm. Qed.

Lemma Rmax_right_comm (a b c : R) : Rmax (Rmax a b) c = Rmax (Rmax a c) b.
Proof. rewrite <- !Rmax_assoc. f_equal. apply Rmax_comm. Qed.

Lemma min3_right_comm (a b c : float3) : min3 (min3 a b) c = min3 (min3 a c) b.
Proof. unfold min3; simpl. f_equal; apply Rmin_right_comm. Qed.

Lemma max3_right_comm (a b c : float3) : max3 (max3 a b) c = max3 (max3 a c) b.
Proof. unfold max3; simpl. f_equal; apply Rmax_right_comm. Qed.

(** Two rows can be processed in either order. *)
Lemma computeBounds_row_comm vl boxes r1 r2 :
  computeBounds_row vl (computeBounds_row vl boxes r1) r2
  = computeBounds_row vl (computeBounds_row vl boxes r2) r1.
Proof.
  destruct boxes as [cb rb]. unfold computeBounds_row.
  destruct (negb (Z.land (LAYERS r1) vl =? 0)%Z),
           (negb (Z.land (LAYERS r2) vl =? 0)%Z); try reflexivity.
  destruct (castShadows (VISIBILITY_STATE r1)),
           (castShadows (VISIBILITY_STATE r2)),
           (receiveShadows (VISIBILITY_STATE r1)),
           (receiveShadows (VISIBILITY_STATE r2)); simpl;
    apply pair_equal_spec; split; try reflexivity;
    (apply (f_equal2 mkAabb); [apply min3_right_comm | apply max3_right_comm]).
Qed.

Lemma computeBounds_rows_perm vl rows rows' :
  Permutation rows rows' ->
  forall boxes, computeBounds_rows vl rows boxes = computeBounds_rows vl rows' boxes.
Proof.
  unfold computeBounds_rows.
  induction 1 as [|r l l' _ IH|r1 r2 l|l l' l'' _ IH1 _ IH2]; intros boxes; simpl.
  - reflexivity.
  - apply IH.
  - now rewrite computeBounds_row_comm.
  - now rewrite IH1.
Qed.

(** A row whose layers miss [visibleLayers] leaves both boxes as they are. *)
Lemma computeBounds_row_hidden vl boxes r :
  Z.land (LAYERS r) vl = 0%Z -> computeBounds_row vl boxes r = boxes.
Proof.
  intros Hr. destruct boxes as [cb rb]. unfold computeBounds_row.
  now rewrite Hr.
Qed.

Lemma computeBounds_rows_app vl l1 l2 boxes :
  computeBounds_rows vl (l1 ++ l2) boxes
  = computeBounds_rows vl l2 (computeBounds_rows vl l1 boxes).
Proof. unfold computeBounds_rows. apply fold_left_app. Qed.

End ComputeBounds.

(** C6.  [computeBounds] is an order-independent reduction: two scenes whose
    renderable rows are permutations of each other give the same caster and
    receiver boxes; a row whose layer mask does not intersect
    [visibleLayers] can be deleted without changing either box; and when no
    row intersects [visibleLayers] both boxes are returned as passed in. *)
Theorem computeBounds_order_independent :
  forall (visibleLayers : Z) (castersBox receiversBox : Aabb),
    (forall s s' : FScene,
        Permutation (SoA.rows (mRenderableData s)) (SoA.rows (mRenderableData s')) ->
        computeBounds s castersBox receiversBox visibleLayers
        = computeBounds s' castersBox receiversBox visibleLayers)
    /\ (forall (s s' : FScene) before r after,
        SoA.rows (mRenderableData s) = before ++ r :: after ->
        SoA.rows (mRenderableData s') = before ++ after ->
        Z.land (LAYERS r) visibleLayers = 0%Z ->
        computeBounds s castersBox receiversBox visibleLayers
        = computeBounds s' castersBox receiversBox visibleLayers)
    /\ (forall s : FScene,
        Forall (fun r => Z.land (LAYERS r) visibleLayers = 0%Z)
               (SoA.rows (mRenderableData s)) ->
        computeBounds s castersBox receiversBox visibleLayers
        = (castersBox, receiversBox)).
Proof.
  intros vl cb rb. unfold computeBounds. repeat split.
  - intros s s' Hp. now apply computeBounds_rows_perm.
  - intros s s' before r after -> -> Hr.
    rewrite !computeBounds_rows_app.
    unfold computeBounds_rows; simpl.
    now rewrite computeBounds_row_hidden.
  - intros s Hall. generalize (cb, rb) as boxes.
    induction Hall as [|r l Hr _ IH]; intros boxes.
    + reflexivity.
    + unfold computeBounds_rows in *; simpl.
      rewrite computeBounds_row_hidden by assumption. apply IH.
Qed.

Lemma computeBounds_order_independent_witness :
  computeBounds (scene_of_renderables [row_unit_box; row_far_box])
    box_at_origin box_at_origin 1
  = computeBounds (scene_of_renderables [row_far_box; row_unit_box])
      box_at_origin box_at_origin 1.
Proof.
  apply (computeBounds_order_independent 1 box_at_origin box_at_origin).
  cbn [scene_of_renderables mRenderableData SoA.rows]. apply perm_swap.
Defined.

(** The example of the specification: one renderable with a unit half extent
    at the origin, on a visible layer, casting and receiving shadows. *)
Example computeBounds_unit_box :
  computeBounds (scene_of_renderables [row_unit_box])
    box_at_origin box_at_origin 1
  = (mkAabb (mkFloat3 (-1) (-1) (-1)) (mkFloat3 1 1 1),
     mkAabb (mkFloat3 (-1) (-1) (-1)) (mkFloat3 1 1 1)).
Proof.
  unfold computeBounds, computeBounds_rows, scene_of_renderables.
  cbn [mRenderableData SoA.rows fold_left computeBounds_row row_unit_box
       LAYERS VISIBILITY_STATE castShadows receiveShadows
       WORLD_AABB_CENTER WORLD_AABB_EXTENT Z.land Pos.land Z.eqb negb].
  cbv [box_at_origin aabb_min aabb_max min3 max3 sub3 add3 zero3 x3 y3 z3].
  replace (0 - 1)%R with (-1)%R by lra. replace (0 + 1)%R with 1%R by lra.
  rewrite (Rmin_right 0 (-1)), (Rmax_right 0 1) by lra. reflexivity.
Qed.

(* ================================================================== *)
(** * Properties of [setSkybox] *)
(* ================================================================== *)

Section Skybox.

Lemma setSkybox_entities (new : option FSkybox) (s : FScene) :
  mEntities (setSkybox new s)
  = (mEntities s ∖ skybox_entity (mSkybox s)) ∪ skybox_entity new.
Proof.
  unfold setSkybox, skybox_entity.
  destruct (mSkybox s) as [old|], new as [sb|]; simpl; set_solver.
Qed.

Lemma setSkybox_registered (new : option FSkybox) (s : FScene) :
  mSkybox (setSkybox new s) = new.
Proof.
  unfold setSkybox. destruct (mSkybox s) as [old|], new as [sb|]; reflexivity.
Qed.

Lemma setSkybox_keeps_invariant (skyboxes : gset Z) new s :
  only_registered_skybox skyboxes s ->
  only_registered_skybox skyboxes (setSkybox new s).
Proof.
  unfold only_registered_skybox.
  rewrite setSkybox_entities, setSkybox_registered. set_solver.
Qed.

End Skybox.

(** C7, as stated, fails: when the entity of skybox [A] is already a member
    of the scene, [setSkybox(A)] adds nothing and [setSkybox(null)] then
    erases that entity, so the membership set shrinks. *)
Lemma setSkybox_round_trip_counterexample :
  mSkybox scene_with_7 = None
  /\ mEntities (setSkybox None (setSkybox (Some skybox_7) scene_with_7))
     <> mEntities scene_with_7.
Proof.
  split; [reflexivity|].
  intros Heq.
  assert (Hin : 7%Z ∈ mEntities scene_with_7) by (simpl; set_solver).
  rewrite <- Heq, !setSkybox_entities, setSkybox_registered in Hin.
  simpl in Hin. set_solver.
Qed.

(** C7, amended.  For a scene with no skybox set and a skybox [A] whose entity
    is not yet a member, [setSkybox(A)] followed by [setSkybox(null)] restores
    the membership set (and leaves no skybox registered).  Every [setSkybox]
    call erases the entity of the previously registered skybox, if any,
    inserts the entity of the new one, if any, and registers the new one; so
    if the only skybox entity among the members was that of the registered
    skybox before a call, the same holds after it. *)
Theorem setSkybox_round_trip (s : FScene) (A : FSkybox) :
  mSkybox s = None ->
  getEntity A ∉ mEntities s ->
  (mEntities (setSkybox None (setSkybox (Some A) s)) = mEntities s
   /\ mSkybox (setSkybox None (setSkybox (Some A) s)) = None)
  /\ (forall (new : option FSkybox) (s0 : FScene),
        mEntities (setSkybox new s0)
        = (mEntities s0 ∖ skybox_entity (mSkybox s0)) ∪ skybox_entity new
        /\ mSkybox (setSkybox new s0) = new)
  /\ (forall (skyboxes : gset Z) (new : option FSkybox) (s0 : FScene),
        only_registered_skybox skyboxes s0 ->
        only_registered_skybox skyboxes (setSkybox new s0)).
Proof.
  intros Hnone Hfresh. repeat split.
  - rewrite !setSkybox_entities, setSkybox_registered, Hnone. simpl. set_solver.
  - apply setSkybox_registered.
  - apply setSkybox_entities.
  - apply setSkybox_registered.
  - intros skyboxes new s0. apply setSkybox_keeps_invariant.
Qed.

Lemma setSkybox_round_trip_witness :
  mEntities (setSkybox None (setSkybox (Some skybox_7) scene_empty))
  = mEntities scene_empty.
Proof.
  apply (setSkybox_round_trip scene_empty skybox_7).
  - reflexivity.
  - simpl. apply not_elem_of_empty.
Defined.

(* ================================================================== *)
(** * Properties of [prepare] *)
(* ================================================================== *)

Section Prepare.
Local Open Scope Z_scope.

(** ** The capacity bound *)

Lemma wrap_small z : 0 <= z < 2 ^ SIZE_BITS -> wrap z = z.
Proof. intros Hz. unfold wrap. now apply Z.mod_small. Qed.

Lemma land_not_0xF x :
  0 <= x < 2 ^ SIZE_BITS -> Z.land x (wrap (Z.lnot 0xF)) = 16 * (x / 16).
Proof.
  intros Hx. unfold wrap, SIZE_BITS in *.
  rewrite <- Z.land_ones by lia.
  rewrite (Z.land_comm (Z.lnot 15)), Z.land_assoc.
  rewrite (Z.land_ones x 64) by lia.
  rewrite Z.mod_small by lia.
  rewrite <- Z.ldiff_land.
  change 15 with (Z.ones 4).
  rewrite Z.ldiff_ones_r by lia.
  rewrite Z.shiftr_div_pow2, Z.shiftl_mul_pow2 by lia.
  change (2 ^ 4) with 16. lia.
Qed.

Lemma capacity_bound_spec n :
  0 <= n -> n + 15 < 2 ^ SIZE_BITS ->
  capacity_bound n = 16 * ((n + 15) / 16) + 1.
Proof.
  intros Hn Hfit. unfold capacity_bound.
  assert (H64 : 2 ^ SIZE_BITS = 18446744073709551616) by reflexivity.
  rewrite (wrap_small (n + 15)) by lia.
  rewrite land_not_0xF by lia.
  apply wrap_small.
  pose proof (Z.mul_div_le (n + 15) 16 ltac:(lia)).
  pose proof (Z.div_pos (n + 15) 16 ltac:(lia) ltac:(lia)). lia.
Qed.

Lemma capacity_bound_ge n :
  0 <= n -> n + 15 < 2 ^ SIZE_BITS -> n + 1 <= capacity_bound n.
Proof.
  intros Hn Hfit. rewrite capacity_bound_spec by assumption.
  pose proof (Z.mod_pos_bound (n + 15) 16 ltac:(lia)).
  pose proof (Z.div_mod (n + 15) 16 ltac:(lia)). lia.
Qed.

(** ** The sizing step *)

Lemma prepare_sizing_rows capacity sceneData lightData :
  SoA.rows (fst (prepare_sizing capacity sceneData lightData)) = []
  /\ SoA.rows (snd (prepare_sizing capacity sceneData lightData)) = [zero_init].
Proof.
  unfold prepare_sizing.
  destruct (SoA.capacity (SoA.clear sceneData) <? capacity),
           (SoA.capacity (SoA.clear lightData) <? capacity); simpl; auto.
Qed.

Lemma prepare_sizing_capacity capacity sceneData lightData :
  1 <= capacity ->
  SoA.capacity (fst (prepare_sizing capacity sceneData lightData))
  = Z.max (SoA.capacity sceneData) capacity
  /\ SoA.capacity (snd (prepare_sizing capacity sceneData lightData))
     = Z.max (SoA.capacity lightData) capacity.
Proof.
  intros Hc. unfold prepare_sizing, DIRECTIONAL_LIGHTS_COUNT. simpl.
  destruct (Z.ltb_spec (SoA.capacity sceneData) capacity),
           (Z.ltb_spec (SoA.capacity lightData) capacity); simpl; lia.
Qed.

(** ** One iteration of the loop *)

Lemma push_back_unsafe_ok {Row} (r : Row) (s : SoA.t Row) :
  SoA.size s < SoA.capacity s ->
  SoA.push_back_unsafe r s = Ok (SoA.mk (SoA.rows s ++ [r]) (SoA.capacity s)).
Proof.
  intros Hlt. unfold SoA.push_back_unsafe.
  destruct (Z.ltb_spec (SoA.size s) (SoA.capacity s)); [reflexivity|lia].
Qed.

Lemma prepare_entity_spec engine wot maxIntensity e sceneRows sceneCap
      row0 lightRows lightCap :
  Z.of_nat (length sceneRows) < sceneCap ->
  Z.of_nat (length (row0 :: lightRows)) < lightCap ->
  prepare_entity engine wot maxIntensity e
    (SoA.mk sceneRows sceneCap, SoA.mk (row0 :: lightRows) lightCap)
  = Ok (SoA.mk (sceneRows ++ (if has_renderable engine e
                              then [entity_renderable_row engine wot e]
                              else []))
               sceneCap,
        SoA.mk ((if overwrites_directional engine maxIntensity e
                 then entity_directional_row engine wot e else row0)
                :: lightRows ++ (if has_local_light engine e
                                 then [entity_light_row engine wot e]
                                 else []))
               lightCap).
Proof.
  intros Hs Hl.
  unfold prepare_entity, has_renderable, has_local_light,
    overwrites_directional, has_directional_light,
    entity_renderable_row, entity_light_row, entity_directional_row,
    entity_transform.
  destruct engine as [em rcm tcm lcm]; cbn [getEntityManager
    getRenderableManager getTransformManager getLightManager].
  destruct (isAlive em e); cbn [negb andb].
  2: { now rewrite !app_nil_r. }
  destruct (valid (rcm_getInstance rcm e)) eqn:Hri;
    destruct (valid (lcm_getInstance lcm e)) eqn:Hli; cbn [negb andb].
  4: { now rewrite !app_nil_r. }
  all: destruct (valid (tcm_getInstance tcm e)) eqn:Hti; cbn [negb andb].
  all: repeat (rewrite push_back_unsafe_ok
                by (unfold SoA.size; cbn [SoA.rows SoA.capacity]; lia)).
  all: cbn [mbind outcome_bind SoA.rows SoA.capacity].
  all: try destruct (isDirectionalLight lcm (lcm_getInstance lcm e)) eqn:Hdir;
    cbn [negb andb].
  all: repeat (rewrite push_back_unsafe_ok
                by (unfold SoA.size; cbn [SoA.rows SoA.capacity]; lia)).
  all: try destruct (float_ge (getIntensity lcm (lcm_getInstance lcm e))
                              maxIntensity).
  all: cbn; rewrite ?app_nil_r; reflexivity.
Qed.

(** ** The whole loop *)

Lemma foldM_prepare_entity engine wot maxIntensity order :
  forall sceneRows sceneCap row0 lightRows lightCap,
  Z.of_nat (length sceneRows) + Z.of_nat (length order) < sceneCap ->
  Z.of_nat (length (row0 :: lightRows)) + Z.of_nat (length order) <= lightCap ->
  foldM (prepare_entity engine wot maxIntensity) order
    (SoA.mk sceneRows sceneCap, SoA.mk (row0 :: lightRows) lightCap)
  = Ok (SoA.mk (sceneRows
                  ++ map (entity_renderable_row engine wot)
                         (filter (fun e => has_renderable engine e) order))
               sceneCap,
        SoA.mk (directional_after engine wot maxIntensity order row0
                  :: lightRows
                  ++ map (entity_light_row engine wot)
                         (filter (fun e => has_local_light engine e) order))
               lightCap).
Proof.
  induction order as [|e order IH]; intros sceneRows sceneCap row0 lightRows
    lightCap Hs Hl.
  - cbn. now rewrite !app_nil_r.
  - cbn [foldM]. cbn [length] in Hs, Hl.
    rewrite prepare_entity_spec by (cbn [length]; lia).
    cbn [mbind outcome_bind].
    rewrite IH.
    + rewrite !filter_cons. unfold directional_after. cbn [fold_left].
      destruct (has_renderable engine e), (has_local_light engine e);
        cbn [decide Is_true_dec map]; rewrite <- ?app_assoc; reflexivity.
    + destruct (has_renderable engine e); rewrite ?length_app; cbn [length];
        lia.
    + destruct (has_local_light engine e); cbn [length];
        rewrite ?length_app; cbn [length]; lia.
Qed.

(** ** Counting over the entity set *)

Lemma elements_filter_perm (P : Z -> Prop) `{!forall e, Decision (P e)}
      (X : gset Z) :
  elements (filter P X) ≡ₚ filter P (elements X).
Proof.
  apply NoDup_Permutation.
  - apply NoDup_elements.
  - apply NoDup_filter, NoDup_elements.
  - intros e. rewrite elem_of_elements, elem_of_filter, list_elem_of_filter,
      elem_of_elements. reflexivity.
Qed.

Lemma count_over_order (P : Z -> Prop) `{!forall e, Decision (P e)}
      (X : gset Z) (order : list Z) :
  order ≡ₚ elements X ->
  length (filter P order) = size (filter P X).
Proof.
  intros Hp. unfold size at 1, set_size; simpl.
  now rewrite elements_filter_perm, Hp.
Qed.

(** [prepare] returns, and what it returns. *)
Lemma prepare_spec engine order wot s :
  order ≡ₚ elements (mEntities s) ->
  Z.of_nat (size (mEntities s)) + 15 < 2 ^ SIZE_BITS ->
  let capacity := capacity_bound (Z.of_nat (size (mEntities s))) in
  prepare engine order wot s
  = Ok (mkScene (mEntities s)
          (SoA.mk (map (entity_renderable_row engine wot)
                       (filter (fun e => has_renderable engine e) order))
                  (Z.max (SoA.capacity (mRenderableData s)) capacity))
          (SoA.mk (directional_after engine wot 0%R order zero_init
                     :: map (entity_light_row engine wot)
                            (filter (fun e => has_local_light engine e) order))
                  (Z.max (SoA.capacity (mLightData s)) capacity))
          (mSkybox s) (mGpuLightData s)).
Proof.
  intros Hp Hfit capacity. unfold prepare. fold capacity.
  assert (Hlen : length order = size (mEntities s)).
  { unfold size, set_size; simpl. now rewrite Hp. }
  pose proof (capacity_bound_ge (Z.of_nat (size (mEntities s)))
                ltac:(lia) Hfit) as Hcap. fold capacity in Hcap.
  pose proof (prepare_sizing_rows capacity (mRenderableData s) (mLightData s))
    as [Hr Hl].
  pose proof (prepare_sizing_capacity capacity (mRenderableData s)
                (mLightData s) ltac:(lia)) as [Hcr Hcl].
  destruct (prepare_sizing capacity (mRenderableData s) (mLightData s))
    as [[sceneRows sceneCap] [lightRows lightCap]].
  cbn [fst snd SoA.rows SoA.capacity] in Hr, Hl, Hcr, Hcl. subst.
  rewrite foldM_prepare_entity by (cbn [length]; lia).
  reflexivity.
Qed.

End Prepare.

(** C3.  After [prepare], whatever the order in which the entity set is
    visited: the call returns; [RenderableSoA] holds one row per alive entity
    that has both a renderable and a transform instance, and nothing else;
    [LightSoA] holds the reserved row 0 followed by one row per alive entity
    that has a non-directional light instance, and nothing else.  Dead
    entities and entities without either component add no row. *)
Theorem prepare_row_counts (engine : FEngine) (order : list Z) (wot : mat4f)
    (s : FScene) :
  order ≡ₚ elements (mEntities s) ->
  (Z.of_nat (size (mEntities s)) + 15 < 2 ^ SIZE_BITS)%Z ->
  exists s' : FScene,
    prepare engine order wot s = Ok s'
    /\ SoA.size (mRenderableData s')
       = Z.of_nat (size (filter (fun e => has_renderable engine e) (mEntities s)))
    /\ SoA.size (mLightData s')
       = (1 + Z.of_nat (size (filter (fun e => has_local_light engine e)
                                      (mEntities s))))%Z
    /\ SoA.rows (mRenderableData s')
       = map (entity_renderable_row engine wot)
             (filter (fun e => has_renderable engine e) order)
    /\ tail (SoA.rows (mLightData s'))
       = map (entity_light_row engine wot)
             (filter (fun e => has_local_light engine e) order).
Proof.
  intros Hp Hfit. eexists. split; [now apply prepare_spec|].
  unfold SoA.size. cbn [mRenderableData mLightData SoA.rows tail length].
  rewrite !length_map.
  rewrite !(count_over_order _ (mEntities s) order Hp).
  repeat split; lia.
Qed.

Lemma prepare_row_counts_witness :
  exists s' : FScene,
    prepare engine_demo [3; 4; 2; 1]%Z identity4 scene_demo = Ok s'
    /\ SoA.size (mRenderableData s')
       = Z.of_nat (size (filter (fun e => has_renderable engine_demo e)
                                (mEntities scene_demo)))
    /\ SoA.size (mLightData s')
       = (1 + Z.of_nat (size (filter (fun e => has_local_light engine_demo e)
                                      (mEntities scene_demo))))%Z
    /\ SoA.rows (mRenderableData s')
       = map (entity_renderable_row engine_demo identity4)
             (filter (fun e => has_renderable engine_demo e) [3; 4; 2; 1]%Z)
    /\ tail (SoA.rows (mLightData s'))
       = map (entity_light_row engine_demo identity4)
             (filter (fun e => has_local_light engine_demo e) [3; 4; 2; 1]%Z).
Proof.
  apply (prepare_row_counts engine_demo [3; 4; 2; 1]%Z identity4 scene_demo).
  - assert (elements (mEntities scene_demo) = [3; 4; 2; 1]%Z) as ->
      by (vm_compute; reflexivity).
    reflexivity.
  - vm_compute. reflexivity.
Defined.

(** C8.  The capacity [prepare] sizes its containers to is the size of the
    entity set rounded up to a multiple of 16, plus one; after [prepare] both
    containers have at least that capacity and no less capacity than before
    the call; and right after the sizing step [LightSoA] holds exactly one
    row, the zeroed directional slot (and [RenderableSoA] none). *)
Theorem prepare_capacity (engine : FEngine) (order : list Z) (wot : mat4f)
    (s : FScene) :
  order ≡ₚ elements (mEntities s) ->
  (Z.of_nat (size (mEntities s)) + 15 < 2 ^ SIZE_BITS)%Z ->
  let n := Z.of_nat (size (mEntities s)) in
  let capacity := capacity_bound n in
  (capacity = 16 * ((n + 15) / 16) + 1
   /\ n <= capacity - 1 < n + 16 /\ (capacity - 1) mod 16 = 0)%Z
  /\ (exists s' : FScene,
        prepare engine order wot s = Ok s'
        /\ (capacity <= SoA.capacity (mRenderableData s'))%Z
        /\ (capacity <= SoA.capacity (mLightData s'))%Z
        /\ (SoA.capacity (mRenderableData s)
            <= SoA.capacity (mRenderableData s'))%Z
        /\ (SoA.capacity (mLightData s) <= SoA.capacity (mLightData s'))%Z)
  /\ (let sized := prepare_sizing capacity (mRenderableData s) (mLightData s) in
      SoA.size (snd sized) = 1%Z
      /\ SoA.rows (snd sized) = [zero_init]
      /\ SoA.rows (fst sized) = []).
Proof.
  intros Hp Hfit n capacity.
  assert (Hspec : capacity = (16 * ((n + 15) / 16) + 1)%Z)
    by (apply capacity_bound_spec; unfold n; lia).
  split; [|split].
  - split; [exact Hspec|].
    pose proof (Z.mod_pos_bound (n + 15) 16 ltac:(lia)).
    pose proof (Z.div_mod (n + 15) 16 ltac:(lia)).
    rewrite Hspec. split; [lia|].
    replace (16 * ((n + 15) / 16) + 1 - 1)%Z with (((n + 15) / 16) * 16)%Z
      by lia.
    apply Z.mod_mul. lia.
  - eexists. split; [now apply prepare_spec|].
    cbn [mRenderableData mLightData SoA.capacity]. fold n. fold capacity. lia.
  - pose proof (prepare_sizing_rows capacity (mRenderableData s) (mLightData s))
      as [Hr Hl].
    cbn zeta. unfold SoA.size. rewrite Hl, Hr. repeat split.
Qed.

Lemma prepare_capacity_witness :
  capacity_bound (Z.of_nat (size (mEntities scene_demo))) = 17%Z.
Proof.
  destruct (prepare_capacity engine_demo [3; 4; 2; 1]%Z identity4 scene_demo)
    as [[Hbound _] _].
  - assert (elements (mEntities scene_demo) = [3; 4; 2; 1]%Z) as ->
      by (vm_compute; reflexivity).
    reflexivity.
  - vm_compute. reflexivity.
  - rewrite Hbound. vm_compute. reflexivity.
Defined.

(* ================================================================== *)
(** * The directional light [prepare] retains *)
(* ================================================================== *)

Section Directional.

Lemma float_ge_true (a b : float) : (a >= b)%R -> float_ge a b = true.
Proof. intros H. unfold float_ge. now destruct (Rge_dec a b). Qed.

Lemma float_ge_false (a b : float) : (a < b)%R -> float_ge a b = false.
Proof. intros H. unfold float_ge. destruct (Rge_dec a b); [lra|reflexivity]. Qed.

Lemma directional_after_app engine wot maxIntensity l1 l2 row0 :
  directional_after engine wot maxIntensity (l1 ++ l2) row0
  = directional_after engine wot maxIntensity l2
      (directional_after engine wot maxIntensity l1 row0).
Proof. unfold directional_after. apply fold_left_app. Qed.

Lemma directional_after_skip engine wot maxIntensity l row0 :
  Forall (fun e => overwrites_directional engine maxIntensity e = false) l ->
  directional_after engine wot maxIntensity l row0 = row0.
Proof.
  unfold directional_after. induction 1 as [|e l He _ IH]; cbn [fold_left].
  - reflexivity.
  - now rewrite He.
Qed.

(** Row 0 ends up holding the last visited directional light whose intensity
    is at least [maxIntensity], whatever the intensities of the lights
    visited before it. *)
Lemma directional_after_last engine wot maxIntensity before e after row0 :
  overwrites_directional engine maxIntensity e = true ->
  Forall (fun e' => overwrites_directional engine maxIntensity e' = false)
         after ->
  directional_after engine wot maxIntensity (before ++ e :: after) row0
  = entity_directional_row engine wot e.
Proof.
  intros He Hafter.
  rewrite directional_after_app.
  change (e :: after) with ([e] ++ after).
  rewrite directional_after_app, directional_after_skip by assumption.
  unfold directional_after. cbn [fold_left]. now rewrite He.
Qed.

(** [prepare] retains the last visited directional light of non-negative
    intensity. *)
Lemma prepare_directional_last_wins engine wot s before e after :
  before ++ e :: after ≡ₚ elements (mEntities s) ->
  (Z.of_nat (size (mEntities s)) + 15 < 2 ^ SIZE_BITS)%Z ->
  overwrites_directional engine 0 e = true ->
  Forall (fun e' => overwrites_directional engine 0 e' = false) after ->
  exists s',
    prepare engine (before ++ e :: after) wot s = Ok s'
    /\ SoA.rows (mLightData s') !! 0%nat
       = Some (entity_directional_row engine wot e).
Proof.
  intros Hp Hfit He Hafter. eexists. split; [now apply prepare_spec|].
  cbn [mLightData SoA.rows lookup list_lookup].
  now rewrite directional_after_last.
Qed.

End Directional.

(** C2 fails on the code.  [maxIntensity] stays 0 for the whole loop, so every
    alive directional light of non-negative intensity overwrites row 0 and the
    last one visited is retained.  With two directional lights of
    intensities 10 (entity 1) and 5 (entity 2): visiting 1 then 2 retains the
    light of intensity 5; visiting 2 then 1 retains the light of
    intensity 10. *)
Theorem prepare_retains_last_directional :
  (getIntensity (getLightManager engine_two_suns) 2
   < getIntensity (getLightManager engine_two_suns) 1)%R
  /\ (exists s' : FScene,
        prepare engine_two_suns [1; 2]%Z identity4 scene_two_suns = Ok s'
        /\ LIGHT_INSTANCE <$> SoA.rows (mLightData s') !! 0%nat = Some 2%Z)
  /\ (exists s' : FScene,
        prepare engine_two_suns [2; 1]%Z identity4 scene_two_suns = Ok s'
        /\ LIGHT_INSTANCE <$> SoA.rows (mLightData s') !! 0%nat = Some 1%Z).
Proof.
  assert (Hel : elements (mEntities scene_two_suns) = [2; 1]%Z)
    by (vm_compute; reflexivity).
  assert (Hfit : (Z.of_nat (size (mEntities scene_two_suns)) + 15
                  < 2 ^ SIZE_BITS)%Z) by (vm_compute; reflexivity).
  assert (Hov1 : overwrites_directional engine_two_suns 0 1 = true).
  { unfold overwrites_directional, has_directional_light. cbn.
    apply float_ge_true. lra. }
  assert (Hov2 : overwrites_directional engine_two_suns 0 2 = true).
  { unfold overwrites_directional, has_directional_light. cbn.
    apply float_ge_true. lra. }
  split; [cbn; lra|]. split.
  - eexists. split.
    + apply prepare_spec; [rewrite Hel; apply perm_swap|exact Hfit].
    + cbn [mLightData SoA.rows lookup list_lookup fmap option_fmap option_map].
      rewrite (directional_after_last _ _ _ [1%Z] 2%Z []) by auto.
      reflexivity.
  - eexists. split.
    + apply prepare_spec; [rewrite Hel; reflexivity|exact Hfit].
    + cbn [mLightData SoA.rows lookup list_lookup fmap option_fmap option_map].
      rewrite (directional_after_last _ _ _ [2%Z] 1%Z []) by auto.
      reflexivity.
Qed.

(* ================================================================== *)
(** * The direction stored for a local light *)
(* ================================================================== *)

Section Direction.
Local Open Scope R_scope.

Lemma dot3_self_pos (v : float3) : v <> zero3 -> 0 < dot3 v v.
Proof.
  destruct v as [a b c]. intros Hv. unfold dot3; simpl.
  destruct (Req_dec a 0) as [->|Ha]; [|nra].
  destruct (Req_dec b 0) as [->|Hb]; [|nra].
  destruct (Req_dec c 0) as [->|Hc]; [|nra].
  now contradiction Hv.
Qed.

Lemma length3_pos (v : float3) : v <> zero3 -> 0 < length3 v.
Proof. intros Hv. apply sqrt_lt_R0. now apply dot3_self_pos. Qed.

Lemma dot3_scale3 (s : float) (v : float3) :
  dot3 (scale3 s v) (scale3 s v) = (s * s) * dot3 v v.
Proof. destruct v. unfold dot3, scale3, float; simpl. ring. Qed.

(** A normalised non-zero vector has length one. *)
Lemma length3_normalize (v : float3) : v <> zero3 -> length3 (normalize v) = 1.
Proof.
  intros Hv. pose proof (length3_pos v Hv) as Hpos.
  unfold normalize. set (L := length3 v) in *.
  unfold length3 at 1. rewrite dot3_scale3.
  assert (HL : dot3 v v = L * L).
  { unfold L, length3. rewrite sqrt_sqrt; [reflexivity|].
    apply Rlt_le. now apply dot3_self_pos. }
  rewrite HL.
  replace (1 / L * (1 / L) * (L * L)) with 1 by (field; lra).
  apply sqrt_1.
Qed.

Lemma mulv3_zero (m : mat3f) : mulv3 m zero3 = zero3.
Proof.
  destruct m as [[? ? ?] [? ? ?] [? ? ?]].
  unfold mulv3, add3, scale3, zero3; simpl. f_equal; unfold float; ring.
Qed.

(** The transpose undoes the inverse-transpose. *)
Lemma transpose_inverse_transpose (m : mat3f) (d : float3) :
  det3 m <> 0 ->
  mulv3 (transpose m) (mulv3 (transpose (inverse m)) d) = d.
Proof.
  destruct m as [[a0 a1 a2] [b0 b1 b2] [c0 c1 c2]], d as [d0 d1 d2].
  intros Hdet. unfold inverse.
  set (D := det3 _) in *. set (k := 1 / D).
  assert (Hk : k * D = 1) by (unfold k; field; exact Hdet).
  assert (HD : D = a0 * (b1 * c2 - b2 * c1) + a1 * (b2 * c0 - b0 * c2)
                   + a2 * (b0 * c1 - b1 * c0))
    by (unfold D, det3, dot3, cross3; simpl; unfold float; ring).
  clearbody k D.
  cbv [mulv3 transpose add3 scale3 cross3 x3 y3 z3 m3c0 m3c1 m3c2].
  f_equal; unfold float.
  - transitivity (k * D * d0); [rewrite HD; ring|rewrite Hk; ring].
  - transitivity (k * D * d1); [rewrite HD; ring|rewrite Hk; ring].
  - transitivity (k * D * d2); [rewrite HD; ring|rewrite Hk; ring].
Qed.

Lemma inverse_transpose_nonzero (m : mat3f) (d : float3) :
  det3 m <> 0 -> d <> zero3 -> mulv3 (transpose (inverse m)) d <> zero3.
Proof.
  intros Hdet Hd Hz. apply Hd.
  rewrite <- (transpose_inverse_transpose m d Hdet), Hz.
  apply mulv3_zero.
Qed.

Lemma world_direction_unit (wt : mat4f) (d : float3) :
  det3 (upperLeft wt) <> 0 -> d <> zero3 -> length3 (world_direction wt d) = 1.
Proof.
  intros Hdet Hd. unfold world_direction.
  apply length3_normalize. now apply inverse_transpose_nonzero.
Qed.

End Direction.




(* ================================================================== *)
(** * Properties of [prepareLights] *)
(* ================================================================== *)

Section PrepareLightsFacts.
Local Open Scope Z_scope.

Variable CONFIG_MAX_LIGHT_COUNT : Z.
Variable std_sort : list (LightRow * float) -> list (LightRow * float).

(** ** The local array [distances] *)

Lemma array_store_length a i v a' :
  array_store a i v = Ok a' -> length a' = length a.
Proof.
  unfold array_store.
  destruct ((0 <=? i) && (i <? Z.of_nat (length a))); [|discriminate].
  intros [= <-]. apply length_insert.
Qed.

Lemma array_store_out_of_bounds a i v :
  Z.of_nat (length a) <= i -> array_store a i v = Undefined.
Proof.
  intros Hi. unfold array_store.
  destruct (Z.ltb_spec i (Z.of_nat (length a))); [lia|].
  now rewrite andb_false_r.
Qed.

(** The loop writes [distances[i]], [distances[i+1]], ...: when the last of
    these indices is outside the array, the loop runs into the out-of-bounds
    store. *)
Lemma compute_distances_overflow position rows :
  forall i distances,
    0 <= i -> rows <> [] ->
    Z.of_nat (length distances) < i + Z.of_nat (length rows) ->
    compute_distances position rows i distances = Undefined.
Proof.
  induction rows as [|r rows IH]; intros i distances Hi Hne Hlen;
    [congruence|].
  cbn [compute_distances].
  destruct (array_store distances i
              (boundary_distance position (POSITION_RADIUS r)))
    as [d'| |] eqn:Hst; cbn [mbind outcome_bind]; try reflexivity.
  - pose proof (array_store_length _ _ _ _ Hst) as Hl.
    assert (Hin : i < Z.of_nat (length distances)).
    { destruct (Z.lt_ge_cases i (Z.of_nat (length distances))) as [|Hge];
        [assumption|].
      rewrite array_store_out_of_bounds in Hst by lia. discriminate. }
    cbn [length] in Hlen.
    apply IH; [lia| |lia].
    destruct rows; [cbn [length] in Hlen; lia|congruence].
  - unfold array_store in Hst.
    destruct ((0 <=? i) && (i <? Z.of_nat (length distances)));
      discriminate.
Qed.

(** ** More lights than the buffer holds *)

Lemma truncate_lights_overflow camera lightData :
  0 <= CONFIG_MAX_LIGHT_COUNT ->
  SoA.size lightData > CONFIG_MAX_LIGHT_COUNT + 1 ->
  truncate_lights CONFIG_MAX_LIGHT_COUNT std_sort CONFIG_MAX_LIGHT_COUNT
    camera lightData = Undefined.
Proof.
  intros Hk Hsize. unfold truncate_lights, DIRECTIONAL_LIGHTS_COUNT.
  destruct (Z.gtb_spec (SoA.size lightData) (CONFIG_MAX_LIGHT_COUNT + 1));
    [|lia].
  unfold SoA.size in *.
  rewrite compute_distances_overflow; [reflexivity|lia| |].
  - intros Hnil. apply (f_equal length) in Hnil.
    rewrite length_drop in Hnil. cbn [length] in Hnil. lia.
  - unfold array_new. rewrite length_replicate, length_drop. lia.
Qed.

Lemma prepareLights_overflow engine camera s :
  0 <= CONFIG_MAX_LIGHT_COUNT ->
  SoA.size (mLightData s) > CONFIG_MAX_LIGHT_COUNT + 1 ->
  prepareLights CONFIG_MAX_LIGHT_COUNT std_sort engine camera s = Undefined.
Proof.
  intros Hk Hsize. unfold prepareLights, prepareLights_sized.
  now rewrite truncate_lights_overflow.
Qed.

(** ** No more lights than the buffer holds *)

Lemma truncate_lights_small distances_len camera lightData :
  SoA.size lightData <= CONFIG_MAX_LIGHT_COUNT + 1 ->
  truncate_lights CONFIG_MAX_LIGHT_COUNT std_sort distances_len camera lightData
  = Ok lightData.
Proof.
  intros Hsize. unfold truncate_lights, DIRECTIONAL_LIGHTS_COUNT.
  destruct (Z.gtb_spec (SoA.size lightData) (CONFIG_MAX_LIGHT_COUNT + 1));
    [lia|reflexivity].
Qed.

Lemma prepareLights_small engine camera s :
  SoA.size (mLightData s) <= CONFIG_MAX_LIGHT_COUNT + 1 ->
  prepareLights CONFIG_MAX_LIGHT_COUNT std_sort engine camera s
  = Ok (mkScene (mEntities s) (mRenderableData s) (mLightData s) (mSkybox s)
          (commit_lights (getLightManager engine) (mLightData s)
             (mGpuLightData s))).
Proof.
  intros Hsize. unfold prepareLights, prepareLights_sized.
  rewrite truncate_lights_small by assumption. cbn [mbind outcome_bind].
  unfold cpp_assert.
  destruct (Z.leb_spec (SoA.size (mLightData s)) (CONFIG_MAX_LIGHT_COUNT + 1));
    [reflexivity|lia].
Qed.

(** The [assert] of line 210 never fires. *)
Lemma prepareLights_assert_holds engine camera s :
  0 <= CONFIG_MAX_LIGHT_COUNT ->
  prepareLights CONFIG_MAX_LIGHT_COUNT std_sort engine camera s
  <> AssertionFailure.
Proof.
  intros Hk.
  destruct (Z.le_gt_cases (SoA.size (mLightData s))
              (CONFIG_MAX_LIGHT_COUNT + 1)).
  - now rewrite prepareLights_small.
  - now rewrite prepareLights_overflow by lia.
Qed.

End PrepareLightsFacts.

(* ================================================================== *)
(** * What [prepareLights] asks of the GPU light buffer *)
(* ================================================================== *)

Section GpuTrace.
Local Open Scope Z_scope.

Lemma fill_gpu_trace lcm rows :
  forall i gpu,
    trace (fill_gpu lcm rows i gpu)
    = trace gpu
      ++ map (fun j => SlotWrite (j - DIRECTIONAL_LIGHTS_COUNT))
             (seqZ i (Z.of_nat (length rows))).
Proof.
  induction rows as [|r rows IH]; intros i gpu.
  - cbn. now rewrite app_nil_r.
  - cbn [fill_gpu length]. rewrite IH.
    unfold write_light, setLightParameters; cbn [trace].
    rewrite (seqZ_cons i (Z.of_nat (S (length rows)))) by lia.
    rewrite <- app_assoc. cbn [map app].
    replace (Z.pred (Z.of_nat (S (length rows))))
      with (Z.of_nat (length rows)) by lia.
    replace (Z.succ i) with (i + 1) by lia. reflexivity.
Qed.

Lemma slot_writes_shift (n : nat) :
  forall i,
    map (fun j => SlotWrite (j - DIRECTIONAL_LIGHTS_COUNT))
        (seqZ (i + 1) (Z.of_nat n))
    = map SlotWrite (seqZ i (Z.of_nat n)).
Proof.
  induction n as [|n IH]; intros i; [reflexivity|].
  rewrite !(seqZ_cons _ (Z.of_nat (S n))) by lia.
  replace (Z.pred (Z.of_nat (S n))) with (Z.of_nat n) by lia.
  replace (Z.succ (i + 1)) with (Z.succ i + 1) by lia.
  cbn [map]. rewrite IH. unfold DIRECTIONAL_LIGHTS_COUNT.
  do 2 f_equal. lia.
Qed.

(** Rows 1, 2, ... [size - 1] are written to slots 0, 1, ... [size - 2], in
    that order; then [invalidate(0, size)] and one [commit] follow. *)
Lemma commit_lights_trace lcm lightData gpu :
  1 <= SoA.size lightData ->
  trace (commit_lights lcm lightData gpu)
  = trace gpu
    ++ map SlotWrite (seqZ 0 (SoA.size lightData - 1))
    ++ [Invalidate 0 (SoA.size lightData); Commit].
Proof.
  intros Hsize. unfold commit_lights, commit, invalidate; cbn [trace].
  rewrite fill_gpu_trace.
  change (seqZ DIRECTIONAL_LIGHTS_COUNT) with (seqZ (0 + 1)).
  rewrite slot_writes_shift, <- !app_assoc.
  unfold DIRECTIONAL_LIGHTS_COUNT, SoA.size in *. rewrite length_drop.
  replace (Z.of_nat (length (SoA.rows lightData) - Z.to_nat 1))
    with (Z.of_nat (length (SoA.rows lightData)) - 1) by lia.
  reflexivity.
Qed.

(** The content of a slot after the loop: row [i] lands in slot [i - 1]. *)
Lemma fill_gpu_slot_other lcm rows :
  forall i gpu slot,
    slot < i - DIRECTIONAL_LIGHTS_COUNT ->
    mLights (fill_gpu lcm rows i gpu) !! slot = mLights gpu !! slot.
Proof.
  induction rows as [|r rows IH]; intros i gpu slot Hslot; [reflexivity|].
  cbn [fill_gpu]. rewrite IH by lia.
  unfold write_light, setLightParameters; cbn [mLights].
  apply lookup_insert_ne. lia.
Qed.

Lemma fill_gpu_slot lcm rows :
  forall i gpu (j : nat) r,
    rows !! j = Some r ->
    exists lp,
      mLights (fill_gpu lcm rows i gpu)
        !! (i + Z.of_nat j - DIRECTIONAL_LIGHTS_COUNT) = Some lp
      /\ xyz (positionFalloff lp) = xyz (POSITION_RADIUS r)
      /\ xyz (directionIES lp) = DIRECTION r
      /\ w4 (colorIntensity lp) = getIntensity lcm (LIGHT_INSTANCE r).
Proof.
  induction rows as [|r0 rows IH]; intros i gpu j r Hj; [discriminate|].
  destruct j as [|j]; cbn [fill_gpu].
  - injection Hj as ->. rewrite fill_gpu_slot_other by lia.
    unfold write_light, setLightParameters; cbn [mLights].
    replace (i + Z.of_nat 0 - DIRECTIONAL_LIGHTS_COUNT)
      with (i - DIRECTIONAL_LIGHTS_COUNT) by lia.
    rewrite lookup_insert_eq. eexists. split; [reflexivity|].
    cbn. destruct (POSITION_RADIUS r), (DIRECTION r). auto.
  - cbn in Hj. destruct (IH (i + 1) (write_light lcm i r0 gpu) j r Hj)
      as (lp & Hlp & Hrest).
    exists lp. split; [|exact Hrest].
    rewrite <- Hlp. f_equal. lia.
Qed.

End GpuTrace.

(* ================================================================== *)
(** * The truncation with a large enough [distances] array *)
(* ================================================================== *)

Section InsertionSort.
Local Open Scope R_scope.

Lemma float_lt_spec (a b : float) :
  (float_lt a b = true <-> a < b) /\ (float_lt a b = false <-> b <= a).
Proof.
  unfold float_lt. destruct (Rlt_dec a b) as [Hlt|Hnlt]; split; split;
    intros; try discriminate; try reflexivity; lra.
Qed.

Lemma insert_by_distance_perm p l :
  Permutation (insert_by_distance p l) (p :: l).
Proof.
  induction l as [|q l IH]; cbn [insert_by_distance]; [reflexivity|].
  destruct (float_lt (snd q) (snd p)); [|reflexivity].
  rewrite IH. apply perm_swap.
Qed.

Lemma insert_by_distance_ascending p l :
  ascending l -> ascending (insert_by_distance p l).
Proof.
  unfold ascending.
  induction 1 as [|q l Hs IH Hq]; cbn [insert_by_distance].
  - repeat constructor.
  - unfold float in *. destruct (float_lt (snd q) (snd p)) eqn:Hlt.
    + apply (proj1 (float_lt_spec _ _)) in Hlt.
      constructor; [exact IH|].
      rewrite (insert_by_distance_perm p l).
      constructor; [lra|exact Hq].
    + apply (proj2 (float_lt_spec _ _)) in Hlt.
      constructor; [now constructor|].
      constructor; [exact Hlt|].
      eapply Forall_impl; [exact Hq|]. cbn. intros; lra.
Qed.

(** The contract of [std::sort] can be met. *)
Lemma insertion_sort_contract : std_sort_contract insertion_sort.
Proof.
  intros l. unfold insertion_sort.
  induction l as [|p l [IHp IHs]]; cbn [foldr].
  - split; [reflexivity|constructor].
  - split.
    + now rewrite insert_by_distance_perm, IHp.
    + now apply insert_by_distance_ascending.
Qed.

End InsertionSort.

Section Truncation.
Local Open Scope Z_scope.

Variable CONFIG_MAX_LIGHT_COUNT : Z.
Variable std_sort : list (LightRow * float) -> list (LightRow * float).
Hypothesis std_sort_ok : std_sort_contract std_sort.

Lemma array_store_in_bounds a i v :
  0 <= i < Z.of_nat (length a) ->
  array_store a i v = Ok (<[Z.to_nat i := Some v]> a).
Proof.
  intros Hi. unfold array_store.
  destruct (Z.leb_spec 0 i), (Z.ltb_spec i (Z.of_nat (length a)));
    (reflexivity || lia).
Qed.

(** With room for every index, the loop returns and the zip iterator then
    sees each row next to its own distance. *)
Lemma compute_distances_ok position rows :
  forall i distances,
    0 <= i -> i + Z.of_nat (length rows) <= Z.of_nat (length distances) ->
    exists d',
      compute_distances position rows i distances = Ok d'
      /\ length d' = length distances
      /\ (forall j : nat, Z.of_nat j < i -> d' !! j = distances !! j)
      /\ zip2 rows i d' = Ok (map (with_distance position) rows).
Proof.
  induction rows as [|r rows IH]; intros i distances Hi Hlen.
  - exists distances. repeat split; reflexivity.
  - cbn [length] in Hlen. cbn [compute_distances].
    rewrite array_store_in_bounds by lia. cbn [mbind outcome_bind].
    set (v := boundary_distance position (POSITION_RADIUS r)).
    destruct (IH (i + 1) (<[Z.to_nat i := Some v]> distances))
      as (d' & Hd' & Hl & Hkeep & Hzip); [lia|rewrite length_insert; lia|].
    exists d'. rewrite length_insert in Hl.
    split; [exact Hd'|]. split; [exact Hl|]. split.
    + intros j Hj. rewrite Hkeep by lia.
      apply list_lookup_insert_ne. lia.
    + cbn [zip2 map]. unfold array_load.
      destruct (Z.leb_spec 0 i); [|lia].
      rewrite (Hkeep (Z.to_nat i)) by lia.
      rewrite list_lookup_insert_eq by lia.
      cbn [mbind outcome_bind]. rewrite Hzip. reflexivity.
Qed.

Lemma strongly_sorted_app {A} (R : A -> A -> Prop) l1 l2 :
  StronglySorted R (l1 ++ l2) ->
  forall a b, In a l1 -> In b l2 -> R a b.
Proof.
  induction l1 as [|x l1 IH]; intros Hs a b Ha Hb; [contradiction|].
  cbn [app] in Hs. apply StronglySorted_inv in Hs as [Hs Hx].
  destruct Ha as [->|Ha].
  - rewrite Forall_forall in Hx. apply Hx, list_elem_of_In, in_or_app. tauto.
  - now apply IH.
Qed.

(** With a [distances] array of at least [size] cells, the branch of lines
    190-208 keeps row 0 in place and, of the local lights, the
    [CONFIG_MAX_LIGHT_COUNT] ones nearest to the camera. *)
Lemma truncate_lights_sized_keeps_nearest distances_len camera row0 locals cap :
  0 <= CONFIG_MAX_LIGHT_COUNT ->
  Z.of_nat (length locals) > CONFIG_MAX_LIGHT_COUNT ->
  1 + Z.of_nat (length locals) <= distances_len ->
  exists kept dropped,
    truncate_lights CONFIG_MAX_LIGHT_COUNT std_sort distances_len camera
      (SoA.mk (row0 :: locals) cap)
    = Ok (SoA.mk (row0 :: kept) (Z.max cap (CONFIG_MAX_LIGHT_COUNT + 1)))
    /\ Z.of_nat (length kept) = CONFIG_MAX_LIGHT_COUNT
    /\ Permutation (kept ++ dropped) locals
    /\ (forall a b, In a kept -> In b dropped ->
          (boundary_distance (getPosition camera) (POSITION_RADIUS a)
           <= boundary_distance (getPosition camera) (POSITION_RADIUS b))%R).
Proof.
  intros Hk Hn Hroom.
  set (position := getPosition camera).
  set (sorted := std_sort (map (with_distance position) locals)).
  destruct (std_sort_ok (map (with_distance position) locals))
    as [Hperm Hsorted]. fold sorted in Hperm, Hsorted.
  assert (Hlen : length sorted = length locals).
  { rewrite (Permutation_length Hperm). apply length_map. }
  assert (Hkeys : Forall (fun p => snd p = boundary_distance position
                                            (POSITION_RADIUS (fst p))) sorted).
  { rewrite Hperm. apply Forall_forall. intros p Hp.
    apply list_elem_of_In, in_map_iff in Hp as (r & <- & _). reflexivity. }
  exists (take (Z.to_nat CONFIG_MAX_LIGHT_COUNT) (sorted.*1)),
         (drop (Z.to_nat CONFIG_MAX_LIGHT_COUNT) (sorted.*1)).
  split; [|split; [|split]].
  - unfold truncate_lights, DIRECTIONAL_LIGHTS_COUNT, SoA.size.
    cbn [SoA.rows length].
    destruct (Z.gtb_spec (Z.of_nat (S (length locals)))
                (CONFIG_MAX_LIGHT_COUNT + 1)); [|lia].
    change (drop (Z.to_nat 1) (row0 :: locals)) with locals. fold position.
    destruct (compute_distances_ok position locals 1 (array_new distances_len))
      as (d' & -> & _ & _ & Hzip); [lia| |].
    { unfold array_new. rewrite length_replicate. lia. }
    cbn [mbind outcome_bind]. unfold sort_lights, DIRECTIONAL_LIGHTS_COUNT.
    cbn [SoA.rows SoA.capacity].
    change (drop (Z.to_nat 1) (row0 :: locals)) with locals.
    rewrite Hzip. cbn [mbind outcome_bind].
    change (take (Z.to_nat 1) (row0 :: locals)) with [row0].
    fold sorted.
    unfold SoA.resize, SoA.size. cbn [SoA.rows SoA.capacity app].
    cbn [length]. rewrite length_fmap, Hlen.
    replace (Z.min (Z.of_nat (S (length locals))) (CONFIG_MAX_LIGHT_COUNT + 1))
      with (CONFIG_MAX_LIGHT_COUNT + 1) by lia.
    replace (Z.to_nat (CONFIG_MAX_LIGHT_COUNT + 1))
      with (S (Z.to_nat CONFIG_MAX_LIGHT_COUNT)) by lia.
    cbn [take].
    replace (S (Z.to_nat CONFIG_MAX_LIGHT_COUNT) - S (length locals))%nat
      with 0%nat by lia.
    cbn [replicate]. now rewrite app_nil_r.
  - rewrite length_take, length_fmap, Hlen. lia.
  - rewrite take_drop. rewrite Hperm.
    clear. induction locals as [|r l IH]; cbn; [constructor|].
    now constructor.
  - intros a b Ha Hb.
    rewrite <- fmap_take in Ha. rewrite <- fmap_drop in Hb.
    apply list_elem_of_In, list_elem_of_fmap in Ha as (pa & -> & Ha).
    apply list_elem_of_In, list_elem_of_fmap in Hb as (pb & -> & Hb).
    rewrite <- (take_drop (Z.to_nat CONFIG_MAX_LIGHT_COUNT) sorted)
      in Hsorted.
    pose proof (strongly_sorted_app _ _ _ Hsorted pa pb
                  (proj1 (list_elem_of_In _ _) Ha)
                  (proj1 (list_elem_of_In _ _) Hb)) as Hle.
    rewrite Forall_forall in Hkeys.
    rewrite <- (Hkeys pa), <- (Hkeys pb); [exact Hle| |].
    + exact (subseteq_drop _ _ _ Hb).
    + exact (subseteq_take _ _ _ Ha).
Qed.

End Truncation.

(* ================================================================== *)
(** * The claims about [prepareLights] *)
(* ================================================================== *)

(** C1 fails on the code.  Line 193 gives [distances] only
    [CONFIG_MAX_LIGHT_COUNT] cells, while the loop of lines 195-200 stores to
    [distances[i]] for every row index [i] up to [size - 1]; the branch is
    entered exactly when [size > CONFIG_MAX_LIGHT_COUNT + 1], so whenever
    there are more local lights than the buffer holds the loop stores past the
    end of the array and the behaviour is undefined: no sorted, truncated
    [LightSoA] is produced.  ([truncate_lights_sized_keeps_nearest] shows that
    the same code with an array of [size] cells keeps the nearest
    lights.) *)
Theorem prepareLights_truncation_overflows (CONFIG_MAX_LIGHT_COUNT : Z)
    (std_sort : list (LightRow * float) -> list (LightRow * float))
    (engine : FEngine) (camera : CameraInfo) (s : FScene) :
  (0 <= CONFIG_MAX_LIGHT_COUNT)%Z ->
  (SoA.size (mLightData s) > CONFIG_MAX_LIGHT_COUNT + 1)%Z ->
  compute_distances (getPosition camera)
    (drop (Z.to_nat DIRECTIONAL_LIGHTS_COUNT) (SoA.rows (mLightData s)))
    DIRECTIONAL_LIGHTS_COUNT (array_new CONFIG_MAX_LIGHT_COUNT)
  = Undefined
  /\ prepareLights CONFIG_MAX_LIGHT_COUNT std_sort engine camera s = Undefined.
Proof.
  intros Hk Hsize. split.
  - unfold SoA.size, DIRECTIONAL_LIGHTS_COUNT in *.
    apply compute_distances_overflow; [lia| |].
    + intros Hnil. apply (f_equal length) in Hnil.
      rewrite length_drop in Hnil. cbn [length] in Hnil. lia.
    + unfold array_new. rewrite length_replicate, length_drop. lia.
  - now apply prepareLights_overflow.
Qed.

Lemma prepareLights_truncation_overflows_witness :
  prepareLights 2 insertion_sort engine_demo camera_origin scene_three_lights
  = Undefined.
Proof.
  apply (prepareLights_truncation_overflows 2 insertion_sort engine_demo
           camera_origin scene_three_lights).
  - lia.
  - reflexivity.
Defined.

(** C9 fails on the code, by the defect of C1.  With
    [CONFIG_MAX_LIGHT_COUNT = 256] and a [LightSoA] of 258 rows, execution
    runs into the out-of-bounds store to [distances] before it reaches the
    [assert] of line 210. *)
Theorem prepareLights_assert_not_reached
    (std_sort : list (LightRow * float) -> list (LightRow * float))
    (engine : FEngine) (camera : CameraInfo) :
  SoA.size (mLightData scene_257_lights) = 258%Z
  /\ prepareLights 256 std_sort engine camera scene_257_lights = Undefined.
Proof.
  assert (Hsize : SoA.size (mLightData scene_257_lights) = 258%Z).
  { unfold SoA.size, scene_257_lights, scene_of_lights.
    cbn [mLightData SoA.rows length]. now rewrite length_replicate. }
  split; [exact Hsize|].
  apply prepareLights_overflow; [lia|]. rewrite Hsize. lia.
Qed.

(** C10.  When [LightSoA] holds at most [CONFIG_MAX_LIGHT_COUNT + 1] rows,
    [prepareLights] returns, leaves [LightSoA] (and the rest of the scene
    apart from the GPU buffer) exactly as it was, and its result depends
    neither on the camera nor on the sorting function: the rows are only
    read, to fill the GPU buffer. *)
Theorem prepareLights_within_capacity (CONFIG_MAX_LIGHT_COUNT : Z)
    (std_sort : list (LightRow * float) -> list (LightRow * float))
    (engine : FEngine) (camera : CameraInfo) (s : FScene) :
  (SoA.size (mLightData s) <= CONFIG_MAX_LIGHT_COUNT + 1)%Z ->
  exists s' : FScene,
    prepareLights CONFIG_MAX_LIGHT_COUNT std_sort engine camera s = Ok s'
    /\ mLightData s' = mLightData s
    /\ mEntities s' = mEntities s
    /\ mRenderableData s' = mRenderableData s
    /\ mSkybox s' = mSkybox s
    /\ mGpuLightData s'
       = commit_lights (getLightManager engine) (mLightData s)
           (mGpuLightData s)
    /\ (forall std_sort' camera',
          prepareLights CONFIG_MAX_LIGHT_COUNT std_sort' engine camera' s
          = Ok s').
Proof.
  intros Hsize. eexists. split; [now apply prepareLights_small|].
  repeat split. intros std_sort' camera'. now apply prepareLights_small.
Qed.

Lemma prepareLights_within_capacity_witness :
  exists s' : FScene,
    prepareLights 2 insertion_sort engine_demo camera_origin scene_two_lights
    = Ok s'
    /\ mLightData s' = mLightData scene_two_lights.
Proof.
  destruct (prepareLights_within_capacity 2 insertion_sort engine_demo
              camera_origin scene_two_lights) as (s' & Hrun & Hsame & _).
  - unfold SoA.size. cbn. lia.
  - exists s'. split; assumption.
Defined.

(** The requests a call within capacity makes: the slot writes in row order,
    then [invalidate(0, size)], then one [commit]. *)
Lemma prepareLights_trace CONFIG_MAX_LIGHT_COUNT std_sort engine camera s :
  (1 <= SoA.size (mLightData s) <= CONFIG_MAX_LIGHT_COUNT + 1)%Z ->
  exists s' : FScene,
    prepareLights CONFIG_MAX_LIGHT_COUNT std_sort engine camera s = Ok s'
    /\ trace (mGpuLightData s')
       = trace (mGpuLightData s)
         ++ map SlotWrite (seqZ 0 (SoA.size (mLightData s) - 1))
         ++ [Invalidate 0 (SoA.size (mLightData s)); Commit].
Proof.
  intros [H1 Hk]. eexists. split; [now apply prepareLights_small|].
  cbn [mGpuLightData]. now apply commit_lights_trace.
Qed.

(** C5 fails on the code.  Rows [1 .. size) are written to slots
    [0 .. size - 1), every write precedes the [invalidate] and the single
    [commit] comes last, but the range marked dirty is [invalidate(0, size)]:
    [size] slots from slot 0, one more than were written.  With only the
    reserved row, no slot is written and slot 0 is marked dirty; with two local
    lights, slots 0 and 1 are written and slots 0, 1 and 2 are marked
    dirty. *)
Theorem prepareLights_invalidates_unwritten_slot
    (std_sort : list (LightRow * float) -> list (LightRow * float))
    (engine : FEngine) (camera : CameraInfo) :
  (exists s' : FScene,
     prepareLights 256 std_sort engine camera scene_no_local_light = Ok s'
     /\ trace (mGpuLightData s') = [Invalidate 0 1; Commit])
  /\ (exists s' : FScene,
        prepareLights 256 std_sort engine camera scene_two_lights = Ok s'
        /\ trace (mGpuLightData s')
           = [SlotWrite 0; SlotWrite 1; Invalidate 0 3; Commit]).
Proof.
  split.
  - destruct (prepareLights_trace 256 std_sort engine camera
                scene_no_local_light) as (s' & Hrun & Htrace).
    + unfold SoA.size. cbn. lia.
    + exists s'. split; [exact Hrun|]. rewrite Htrace. reflexivity.
  - destruct (prepareLights_trace 256 std_sort engine camera scene_two_lights)
      as (s' & Hrun & Htrace).
    + unfold SoA.size. cbn. lia.
    + exists s'. split; [exact Hrun|]. rewrite Htrace. reflexivity.
Qed.

(* ================================================================== *)
(** * Entity counts *)
(* ================================================================== *)

Section Counts.
Local Open Scope Z_scope.

Lemma filter_cons_bool (p : Z -> bool) (e : Z) (l : list Z) :
  filter (fun e => p e) (e :: l)
  = if p e then e :: filter (fun e => p e) l else filter (fun e => p e) l.
Proof.
  rewrite filter_cons. destruct (p e).
  - now rewrite decide_True.
  - now rewrite decide_False by (intros []).
Qed.

Lemma count_fold (p : Z -> bool) (l : list Z) :
  forall c,
    0 <= c -> c + Z.of_nat (length l) < 2 ^ SIZE_BITS ->
    fold_left (fun count e => wrap (count + (if p e then 1 else 0))) l c
    = c + Z.of_nat (length (filter (fun e => p e) l)).
Proof.
  induction l as [|e l IH]; intros c Hc Hfit; cbn [fold_left length] in *.
  - cbn. lia.
  - rewrite filter_cons_bool.
    destruct (p e); cbn [length];
      rewrite wrap_small by lia; rewrite IH by lia; lia.
Qed.

Lemma length_filter_split (p q r : Z -> bool) (l : list Z) :
  (forall e, p e = q e || r e) -> (forall e, q e && r e = false) ->
  length (filter (fun e => p e) l)
  = (length (filter (fun e => q e) l) + length (filter (fun e => r e) l))%nat.
Proof.
  intros Hp Hqr. induction l as [|e l IH]; [reflexivity|].
  rewrite !filter_cons_bool. specialize (Hp e). specialize (Hqr e).
  destruct (p e), (q e), (r e); try discriminate; cbn [length]; lia.
Qed.

Lemma order_length (X : gset Z) (order : list Z) :
  order ≡ₚ elements X -> length order = size X.
Proof. intros Hp. unfold size, set_size; simpl. now rewrite Hp. Qed.

Lemma getRenderableCount_spec engine order :
  Z.of_nat (length order) < 2 ^ SIZE_BITS ->
  getRenderableCount engine order
  = Z.of_nat (length (filter (fun e => is_renderable engine e) order)).
Proof.
  intros Hfit. unfold getRenderableCount.
  rewrite (count_fold (is_renderable engine)) by lia. lia.
Qed.

Lemma getLightCount_spec engine order :
  Z.of_nat (length order) < 2 ^ SIZE_BITS ->
  getLightCount engine order
  = Z.of_nat (length (filter (fun e => is_light engine e) order)).
Proof.
  intros Hfit. unfold getLightCount.
  rewrite (count_fold (is_light engine)) by lia. lia.
Qed.

End Counts.

(** X1.  [getRenderableCount] and [getLightCount] return the number of alive
    members of the scene that carry the component, whatever the order in
    which the entity set is visited; destroyed entities that are still
    members are not counted, and the counts never exceed the size of the entity
    set. *)
Theorem entity_counts (engine : FEngine) (order : list Z) (s : FScene) :
  order ≡ₚ elements (mEntities s) ->
  (Z.of_nat (size (mEntities s)) < 2 ^ SIZE_BITS)%Z ->
  getRenderableCount engine order
  = Z.of_nat (size (filter (fun e => is_renderable engine e) (mEntities s)))
  /\ getLightCount engine order
     = Z.of_nat (size (filter (fun e => is_light engine e) (mEntities s)))
  /\ (getRenderableCount engine order <= Z.of_nat (size (mEntities s)))%Z
  /\ (getLightCount engine order <= Z.of_nat (size (mEntities s)))%Z.
Proof.
  intros Hp Hfit. pose proof (order_length _ _ Hp) as Hlen.
  rewrite getRenderableCount_spec, getLightCount_spec by lia.
  rewrite <- !(count_over_order _ (mEntities s) order Hp).
  pose proof (length_filter (fun e => is_renderable engine e) order).
  pose proof (length_filter (fun e => is_light engine e) order).
  repeat split; lia.
Qed.

Lemma scene_demo_order : [3; 4; 2; 1]%Z ≡ₚ elements (mEntities scene_demo).
Proof.
  assert (elements (mEntities scene_demo) = [3; 4; 2; 1]%Z) as ->
    by (vm_compute; reflexivity).
  reflexivity.
Qed.

Lemma scene_demo_fits :
  (Z.of_nat (size (mEntities scene_demo)) + 15 < 2 ^ SIZE_BITS)%Z.
Proof. vm_compute. reflexivity. Qed.

Lemma entity_counts_witness :
  getRenderableCount engine_demo [3; 4; 2; 1]%Z = 1%Z
  /\ getLightCount engine_demo [3; 4; 2; 1]%Z = 2%Z.
Proof.
  destruct (entity_counts engine_demo [3; 4; 2; 1]%Z scene_demo)
    as (Hr & Hl & _).
  - exact scene_demo_order.
  - vm_compute. reflexivity.
  - split; vm_compute; reflexivity.
Defined.

(** X2.  [prepare] gathers a row for every renderable that
    [getRenderableCount] counts except those without a transform: the count
    is the number of rows of [RenderableSoA] plus the number of alive
    renderables that have no transform instance. *)
Theorem renderable_count_vs_rows (engine : FEngine) (order : list Z)
    (wot : mat4f) (s : FScene) :
  order ≡ₚ elements (mEntities s) ->
  (Z.of_nat (size (mEntities s)) + 15 < 2 ^ SIZE_BITS)%Z ->
  exists s' : FScene,
    prepare engine order wot s = Ok s'
    /\ getRenderableCount engine order
       = (SoA.size (mRenderableData s')
          + Z.of_nat (size (filter
                (fun e => is_renderable_without_transform engine e)
                (mEntities s))))%Z.
Proof.
  intros Hp Hfit. pose proof (order_length _ _ Hp) as Hlen.
  eexists. split; [now apply prepare_spec|].
  rewrite getRenderableCount_spec by lia.
  unfold SoA.size. cbn [mRenderableData SoA.rows]. rewrite length_map.
  rewrite <- (count_over_order _ (mEntities s) order Hp).
  rewrite (length_filter_split (is_renderable engine)
             (has_renderable engine)
             (is_renderable_without_transform engine)); [lia| |].
  - intros e. unfold is_renderable, has_renderable,
      is_renderable_without_transform, is_renderable.
    destruct (isAlive _ e), (valid (rcm_getInstance _ e)),
      (valid (tcm_getInstance _ e)); reflexivity.
  - intros e. unfold has_renderable, is_renderable_without_transform,
      is_renderable.
    destruct (isAlive _ e), (valid (rcm_getInstance _ e)),
      (valid (tcm_getInstance _ e)); reflexivity.
Qed.

Lemma renderable_count_vs_rows_witness :
  exists s' : FScene,
    prepare engine_demo [3; 4; 2; 1]%Z identity4 scene_demo = Ok s'
    /\ getRenderableCount engine_demo [3; 4; 2; 1]%Z
       = (SoA.size (mRenderableData s')
          + Z.of_nat (size (filter
                (fun e => is_renderable_without_transform engine_demo e)
                (mEntities scene_demo))))%Z.
Proof.
  apply (renderable_count_vs_rows engine_demo [3; 4; 2; 1]%Z identity4
           scene_demo).
  - exact scene_demo_order.
  - exact scene_demo_fits.
Defined.

(** X3.  Every light that [getLightCount] counts is either gathered by
    [prepare] as a local-light row or is a directional light: the count is
    the number of rows of [LightSoA] after row 0 plus the number of alive
    directional lights. *)
Theorem light_count_vs_rows (engine : FEngine) (order : list Z)
    (wot : mat4f) (s : FScene) :
  order ≡ₚ elements (mEntities s) ->
  (Z.of_nat (size (mEntities s)) + 15 < 2 ^ SIZE_BITS)%Z ->
  exists s' : FScene,
    prepare engine order wot s = Ok s'
    /\ getLightCount engine order
       = (SoA.size (mLightData s') - 1
          + Z.of_nat (size (filter
                (fun e => has_directional_light engine e)
                (mEntities s))))%Z.
Proof.
  intros Hp Hfit. pose proof (order_length _ _ Hp) as Hlen.
  eexists. split; [now apply prepare_spec|].
  rewrite getLightCount_spec by lia.
  unfold SoA.size. cbn [mLightData SoA.rows length]. rewrite length_map.
  rewrite <- (count_over_order _ (mEntities s) order Hp).
  rewrite (length_filter_split (is_light engine) (has_local_light engine)
             (has_directional_light engine)); [lia| |].
  - intros e. unfold is_light, has_local_light, has_directional_light.
    destruct (isAlive _ e), (valid (lcm_getInstance _ e)),
      (isDirectionalLight _ _); reflexivity.
  - intros e. unfold has_local_light, has_directional_light.
    destruct (isAlive _ e), (valid (lcm_getInstance _ e)),
      (isDirectionalLight _ _); reflexivity.
Qed.

Lemma light_count_vs_rows_witness :
  exists s' : FScene,
    prepare engine_demo [3; 4; 2; 1]%Z identity4 scene_demo = Ok s'
    /\ getLightCount engine_demo [3; 4; 2; 1]%Z
       = (SoA.size (mLightData s') - 1
          + Z.of_nat (size (filter
                (fun e => has_directional_light engine_demo e)
                (mEntities scene_demo))))%Z.
Proof.
  apply (light_count_vs_rows engine_demo [3; 4; 2; 1]%Z identity4 scene_demo).
  - exact scene_demo_order.
  - exact scene_demo_fits.
Defined.

(* ================================================================== *)
(** * More about [prepare] *)
(* ================================================================== *)

Section PrepareMore.

Lemma directional_after_cases engine wot maxIntensity order :
  forall row0,
    directional_after engine wot maxIntensity order row0 = row0
    \/ exists e, e ∈ order
         /\ overwrites_directional engine maxIntensity e = true
         /\ directional_after engine wot maxIntensity order row0
            = entity_directional_row engine wot e.
Proof.
  unfold directional_after.
  induction order as [|e order IH]; intros row0; cbn [fold_left];
    [now left|].
  destruct (overwrites_directional engine maxIntensity e) eqn:He.
  - destruct (IH (entity_directional_row engine wot e))
      as [Hsame|(e' & Hin & He' & Hrow)].
    + right. exists e. split; [left|]. now split.
    + right. exists e'. split; [now right|]. now split.
  - destruct (IH row0) as [Hsame|(e' & Hin & He' & Hrow)].
    + now left.
    + right. exists e'. split; [now right|]. now split.
Qed.

Lemma overwrites_directional_valid engine maxIntensity e :
  overwrites_directional engine maxIntensity e = true ->
  isAlive (getEntityManager engine) e = true
  /\ valid (lcm_getInstance (getLightManager engine) e) = true
  /\ isDirectionalLight (getLightManager engine)
       (lcm_getInstance (getLightManager engine) e) = true
  /\ (getIntensity (getLightManager engine)
        (lcm_getInstance (getLightManager engine) e) >= maxIntensity)%R.
Proof.
  unfold overwrites_directional, has_directional_light, float_ge.
  destruct (isAlive _ e), (valid _), (isDirectionalLight _ _),
    (Rge_dec _ _); cbn; intros; try discriminate. auto.
Qed.

End PrepareMore.

(** X4.  [prepare] rebuilds both containers from scratch: the rows it
    produces do not depend on what the containers held before, a second call
    in the same engine state returns the very same scene, and the entity set,
    the skybox and the GPU light buffer are left as they were. *)
Theorem prepare_idempotent (engine : FEngine) (order : list Z) (wot : mat4f)
    (s : FScene) :
  order ≡ₚ elements (mEntities s) ->
  (Z.of_nat (size (mEntities s)) + 15 < 2 ^ SIZE_BITS)%Z ->
  exists s' : FScene,
    prepare engine order wot s = Ok s'
    /\ prepare engine order wot s' = Ok s'
    /\ (forall s2 : FScene,
          mEntities s2 = mEntities s ->
          exists s2' : FScene,
            prepare engine order wot s2 = Ok s2'
            /\ SoA.rows (mRenderableData s2') = SoA.rows (mRenderableData s')
            /\ SoA.rows (mLightData s2') = SoA.rows (mLightData s'))
    /\ mEntities s' = mEntities s
    /\ mSkybox s' = mSkybox s
    /\ mGpuLightData s' = mGpuLightData s.
Proof.
  intros Hp Hfit. eexists. split; [now apply prepare_spec|].
  split; [|split; [|repeat split]].
  - rewrite prepare_spec by assumption.
    cbn [mEntities mRenderableData mLightData mSkybox mGpuLightData
         SoA.capacity].
    do 2 f_equal; f_equal; lia.
  - intros s2 Hsame. eexists. split.
    + apply prepare_spec; rewrite Hsame; assumption.
    + split; reflexivity.
Qed.

Lemma prepare_idempotent_witness :
  exists s' : FScene,
    prepare engine_demo [3; 4; 2; 1]%Z identity4 scene_demo = Ok s'
    /\ prepare engine_demo [3; 4; 2; 1]%Z identity4 s' = Ok s'.
Proof.
  destruct (prepare_idempotent engine_demo [3; 4; 2; 1]%Z identity4 scene_demo)
    as (s' & H1 & H2 & _).
  - exact scene_demo_order.
  - exact scene_demo_fits.
  - exists s'. split; assumption.
Defined.

(** X5.  After [prepare], row 0 of [LightSoA] is either the zeroed row (null
    light instance) or the row of an alive member that carries a directional
    light of non-negative intensity; it is the zeroed row whenever the scene
    has no such member.  A destroyed entity's light or a light of negative
    intensity is never retained. *)
Theorem prepare_directional_slot (engine : FEngine) (order : list Z)
    (wot : mat4f) (s : FScene) :
  order ≡ₚ elements (mEntities s) ->
  (Z.of_nat (size (mEntities s)) + 15 < 2 ^ SIZE_BITS)%Z ->
  exists (s' : FScene) (row0 : LightRow),
    prepare engine order wot s = Ok s'
    /\ SoA.rows (mLightData s') !! 0%nat = Some row0
    /\ (row0 = zero_init
        \/ exists e : Z,
             e ∈ mEntities s
             /\ isAlive (getEntityManager engine) e = true
             /\ isDirectionalLight (getLightManager engine)
                  (lcm_getInstance (getLightManager engine) e) = true
             /\ (getIntensity (getLightManager engine)
                   (lcm_getInstance (getLightManager engine) e) >= 0)%R
             /\ valid (LIGHT_INSTANCE row0) = true
             /\ row0 = entity_directional_row engine wot e)
    /\ ((forall e : Z, e ∈ mEntities s ->
           overwrites_directional engine 0 e = false) ->
        row0 = zero_init).
Proof.
  intros Hp Hfit. eexists. eexists. split; [now apply prepare_spec|].
  cbn [mLightData SoA.rows lookup list_lookup]. split; [reflexivity|]. split.
  - destruct (directional_after_cases engine wot 0%R order zero_init)
      as [Hsame|(e & Hin & He & Hrow)]; [now left|].
    right. exists e.
    destruct (overwrites_directional_valid _ _ _ He) as (Ha & Hv & Hd & Hi).
    rewrite Hrow. repeat split; try assumption.
    rewrite Hp in Hin. now apply elem_of_elements in Hin.
  - intros Hnone. apply directional_after_skip.
    apply Forall_forall. intros e Hin. apply Hnone.
    rewrite Hp in Hin. now apply elem_of_elements in Hin.
Qed.

Lemma prepare_directional_slot_witness :
  exists (s' : FScene) (row0 : LightRow),
    prepare engine_demo [3; 4; 2; 1]%Z identity4 scene_demo = Ok s'
    /\ SoA.rows (mLightData s') !! 0%nat = Some row0.
Proof.
  destruct (prepare_directional_slot engine_demo [3; 4; 2; 1]%Z identity4
              scene_demo) as (s' & row0 & H1 & H2 & _).
  - exact scene_demo_order.
  - exact scene_demo_fits.
  - exists s', row0. split; assumption.
Defined.

(** X6.  [prepare] never stores a null instance or a directional light among
    the gathered rows: every row of [RenderableSoA] refers to a valid
    renderable instance, and every row of [LightSoA] after row 0 refers to a
    valid light instance that is not a directional light. *)
Theorem prepare_rows_valid (engine : FEngine) (order : list Z) (wot : mat4f)
    (s : FScene) :
  order ≡ₚ elements (mEntities s) ->
  (Z.of_nat (size (mEntities s)) + 15 < 2 ^ SIZE_BITS)%Z ->
  exists s' : FScene,
    prepare engine order wot s = Ok s'
    /\ Forall (fun r => valid (RENDERABLE_INSTANCE r) = true)
              (SoA.rows (mRenderableData s'))
    /\ Forall (fun r => valid (LIGHT_INSTANCE r) = true
                        /\ isDirectionalLight (getLightManager engine)
                             (LIGHT_INSTANCE r) = false)
              (tail (SoA.rows (mLightData s'))).
Proof.
  intros Hp Hfit. eexists. split; [now apply prepare_spec|].
  cbn [mRenderableData mLightData SoA.rows tail]. split.
  - apply Forall_forall. intros r Hr.
    apply list_elem_of_In, in_map_iff in Hr as (e & <- & He).
    apply list_elem_of_In, list_elem_of_filter in He as [He _].
    unfold has_renderable in He. cbn [entity_renderable_row renderable_row
      RENDERABLE_INSTANCE].
    destruct (isAlive _ e), (valid (rcm_getInstance _ e)); cbn in He;
      try contradiction. reflexivity.
  - apply Forall_forall. intros r Hr.
    apply list_elem_of_In, in_map_iff in Hr as (e & <- & He).
    apply list_elem_of_In, list_elem_of_filter in He as [He _].
    unfold has_local_light in He.
    unfold entity_light_row, local_light_row. cbn [LIGHT_INSTANCE].
    destruct (isAlive _ e), (valid (lcm_getInstance _ e)),
      (isDirectionalLight _ _); cbn in He; try contradiction. auto.
Qed.

Lemma prepare_rows_valid_witness :
  exists s' : FScene,
    prepare engine_demo [3; 4; 2; 1]%Z identity4 scene_demo = Ok s'
    /\ Forall (fun r => valid (RENDERABLE_INSTANCE r) = true)
              (SoA.rows (mRenderableData s')).
Proof.
  destruct (prepare_rows_valid engine_demo [3; 4; 2; 1]%Z identity4 scene_demo)
    as (s' & H1 & H2 & _).
  - exact scene_demo_order.
  - exact scene_demo_fits.
  - exists s'. split; assumption.
Defined.

(** X7.  After [prepare] both containers respect their capacity, and
    [RenderableSoA] keeps at least one spare row past its last one (the entry
    reserved for the summed primitive count); neither container holds more
    rows than the scene has entities (plus the reserved row for lights). *)
Theorem prepare_within_capacity (engine : FEngine) (order : list Z)
    (wot : mat4f) (s : FScene) :
  order ≡ₚ elements (mEntities s) ->
  (Z.of_nat (size (mEntities s)) + 15 < 2 ^ SIZE_BITS)%Z ->
  exists s' : FScene,
    prepare engine order wot s = Ok s'
    /\ (SoA.size (mRenderableData s') + 1
        <= SoA.capacity (mRenderableData s'))%Z
    /\ (SoA.size (mLightData s') <= SoA.capacity (mLightData s'))%Z
    /\ (SoA.size (mRenderableData s') <= Z.of_nat (size (mEntities s)))%Z
    /\ (SoA.size (mLightData s') <= Z.of_nat (size (mEntities s)) + 1)%Z.
Proof.
  intros Hp Hfit. pose proof (order_length _ _ Hp) as Hlen.
  pose proof (capacity_bound_ge (Z.of_nat (size (mEntities s)))
                ltac:(lia) Hfit) as Hcap.
  eexists. split; [now apply prepare_spec|].
  unfold SoA.size.
  cbn [mRenderableData mLightData SoA.rows SoA.capacity length].
  rewrite !length_map.
  pose proof (length_filter (fun e => has_renderable engine e) order).
  pose proof (length_filter (fun e => has_local_light engine e) order).
  repeat split; lia.
Qed.

Lemma prepare_within_capacity_witness :
  exists s' : FScene,
    prepare engine_demo [3; 4; 2; 1]%Z identity4 scene_demo = Ok s'
    /\ (SoA.size (mRenderableData s') + 1
        <= SoA.capacity (mRenderableData s'))%Z.
Proof.
  destruct (prepare_within_capacity engine_demo [3; 4; 2; 1]%Z identity4
              scene_demo) as (s' & H1 & H2 & _).
  - exact scene_demo_order.
  - exact scene_demo_fits.
  - exists s'. split; assumption.
Defined.

(** X8.  The order in which [prepare] visits the entity set only permutes
    what it gathers: for two enumerations of the same set, the rows of
    [RenderableSoA] are permutations of each other, and so are the
    local-light rows of [LightSoA]; the capacities are the same. *)
Theorem prepare_order_permutes (engine : FEngine) (order1 order2 : list Z)
    (wot : mat4f) (s : FScene) :
  order1 ≡ₚ elements (mEntities s) ->
  order2 ≡ₚ elements (mEntities s) ->
  (Z.of_nat (size (mEntities s)) + 15 < 2 ^ SIZE_BITS)%Z ->
  exists s1 s2 : FScene,
    prepare engine order1 wot s = Ok s1
    /\ prepare engine order2 wot s = Ok s2
    /\ SoA.rows (mRenderableData s1) ≡ₚ SoA.rows (mRenderableData s2)
    /\ tail (SoA.rows (mLightData s1)) ≡ₚ tail (SoA.rows (mLightData s2))
    /\ SoA.capacity (mRenderableData s1) = SoA.capacity (mRenderableData s2)
    /\ SoA.capacity (mLightData s1) = SoA.capacity (mLightData s2).
Proof.
  intros Hp1 Hp2 Hfit. eexists. eexists.
  split; [now apply prepare_spec|]. split; [now apply prepare_spec|].
  cbn [mRenderableData mLightData SoA.rows SoA.capacity tail].
  assert (H12 : order1 ≡ₚ order2) by now rewrite Hp1, Hp2.
  repeat split.
  - apply Permutation_map. now rewrite H12.
  - apply Permutation_map. now rewrite H12.
Qed.

Lemma scene_demo_order' : [1; 2; 3; 4]%Z ≡ₚ elements (mEntities scene_demo).
Proof.
  rewrite <- scene_demo_order.
  transitivity (rev [1; 2; 3; 4]%Z); [apply Permutation_rev|].
  cbn [rev app]. apply perm_swap.
Qed.

Lemma prepare_order_permutes_witness :
  exists s1 s2 : FScene,
    prepare engine_demo [3; 4; 2; 1]%Z identity4 scene_demo = Ok s1
    /\ prepare engine_demo [1; 2; 3; 4]%Z identity4 scene_demo = Ok s2
    /\ SoA.rows (mRenderableData s1) ≡ₚ SoA.rows (mRenderableData s2).
Proof.
  destruct (prepare_order_permutes engine_demo [3; 4; 2; 1]%Z [1; 2; 3; 4]%Z
              identity4 scene_demo) as (s1 & s2 & H1 & H2 & H3 & _).
  - exact scene_demo_order.
  - exact scene_demo_order'.
  - exact scene_demo_fits.
  - exists s1, s2. repeat split; assumption.
Defined.

(** X9.  The boxes [computeBounds] returns after [prepare] do not depend on
    the order in which [prepare] visited the entity set. *)
Theorem computeBounds_after_prepare (engine : FEngine) (order1 order2 : list Z)
    (wot : mat4f) (s : FScene) (castersBox receiversBox : Aabb)
    (visibleLayers : Z) :
  order1 ≡ₚ elements (mEntities s) ->
  order2 ≡ₚ elements (mEntities s) ->
  (Z.of_nat (size (mEntities s)) + 15 < 2 ^ SIZE_BITS)%Z ->
  exists s1 s2 : FScene,
    prepare engine order1 wot s = Ok s1
    /\ prepare engine order2 wot s = Ok s2
    /\ computeBounds s1 castersBox receiversBox visibleLayers
       = computeBounds s2 castersBox receiversBox visibleLayers.
Proof.
  intros Hp1 Hp2 Hfit. eexists. eexists.
  split; [now apply prepare_spec|]. split; [now apply prepare_spec|].
  unfold computeBounds. cbn [mRenderableData SoA.rows].
  apply computeBounds_rows_perm, Permutation_map.
  assert (H12 : order1 ≡ₚ order2) by now rewrite Hp1, Hp2.
  now rewrite H12.
Qed.

Lemma computeBounds_after_prepare_witness :
  exists s1 s2 : FScene,
    prepare engine_demo [3; 4; 2; 1]%Z identity4 scene_demo = Ok s1
    /\ prepare engine_demo [1; 2; 3; 4]%Z identity4 scene_demo = Ok s2
    /\ computeBounds s1 box_at_origin box_at_origin 1
       = computeBounds s2 box_at_origin box_at_origin 1.
Proof.
  apply (computeBounds_after_prepare engine_demo [3; 4; 2; 1]%Z
           [1; 2; 3; 4]%Z identity4 scene_demo box_at_origin box_at_origin 1).
  - exact scene_demo_order.
  - exact scene_demo_order'.
  - exact scene_demo_fits.
Defined.

(* ================================================================== *)
(** * More about [computeBounds] *)
(* ================================================================== *)

Section BoundsMore.
Local Open Scope R_scope.

Lemma le3_refl a : le3 a a.
Proof. unfold le3. lra. Qed.

Lemma le3_trans a b c : le3 a b -> le3 b c -> le3 a c.
Proof. unfold le3. lra. Qed.

Lemma aabb_within_refl b : aabb_within b b.
Proof. split; apply le3_refl. Qed.

Lemma aabb_within_trans a b c :
  aabb_within a b -> aabb_within b c -> aabb_within a c.
Proof. intros [? ?] [? ?]. split; eapply le3_trans; eassumption. Qed.

Lemma min3_le_l a b : le3 (min3 a b) a.
Proof. unfold le3, min3; cbn. repeat split; apply Rmin_l. Qed.

Lemma min3_le_r a b : le3 (min3 a b) b.
Proof. unfold le3, min3; cbn. repeat split; apply Rmin_r. Qed.

Lemma max3_ge_l a b : le3 a (max3 a b).
Proof. unfold le3, max3; cbn. repeat split; apply Rmax_l. Qed.

Lemma max3_ge_r a b : le3 b (max3 a b).
Proof. unfold le3, max3; cbn. repeat split; apply Rmax_r. Qed.

(** One row only ever enlarges the two boxes, and a visible row that casts
    (receives) shadows ends up inside the casters (receivers) box. *)
Lemma computeBounds_row_grows vl boxes r :
  aabb_within (fst boxes) (fst (computeBounds_row vl boxes r))
  /\ aabb_within (snd boxes) (snd (computeBounds_row vl boxes r))
  /\ (row_visible vl r = true -> castShadows (VISIBILITY_STATE r) = true ->
      aabb_within (row_aabb r) (fst (computeBounds_row vl boxes r)))
  /\ (row_visible vl r = true -> receiveShadows (VISIBILITY_STATE r) = true ->
      aabb_within (row_aabb r) (snd (computeBounds_row vl boxes r))).
Proof.
  destruct boxes as [cb rb]. unfold computeBounds_row, row_visible.
  fold (row_aabb r).
  destruct (negb (Z.land (LAYERS r) vl =? 0)%Z); cbn [fst snd].
  2: { split; [apply aabb_within_refl|].
       split; [apply aabb_within_refl|]. split; discriminate. }
  destruct (castShadows (VISIBILITY_STATE r)),
           (receiveShadows (VISIBILITY_STATE r)); cbn [fst snd].
  all: split; [|split; [|split]]; intros; try discriminate.
  all: split; cbn [aabb_min aabb_max];
    auto using le3_refl, min3_le_l, min3_le_r, max3_ge_l, max3_ge_r.
Qed.

Lemma computeBounds_rows_grows vl rows :
  forall boxes,
    aabb_within (fst boxes) (fst (computeBounds_rows vl rows boxes))
    /\ aabb_within (snd boxes) (snd (computeBounds_rows vl rows boxes)).
Proof.
  unfold computeBounds_rows.
  induction rows as [|r rows IH]; intros boxes; cbn [fold_left].
  - split; apply aabb_within_refl.
  - destruct (computeBounds_row_grows vl boxes r) as (Hc & Hr & _).
    destruct (IH (computeBounds_row vl boxes r)) as [Hc' Hr'].
    split; eapply aabb_within_trans; eassumption.
Qed.

Lemma computeBounds_rows_contains vl rows :
  forall boxes r,
    In r rows -> row_visible vl r = true ->
    (castShadows (VISIBILITY_STATE r) = true ->
     aabb_within (row_aabb r) (fst (computeBounds_rows vl rows boxes)))
    /\ (receiveShadows (VISIBILITY_STATE r) = true ->
        aabb_within (row_aabb r) (snd (computeBounds_rows vl rows boxes))).
Proof.
  induction rows as [|r0 rows IH]; intros boxes r Hin Hvis; [contradiction|].
  unfold computeBounds_rows in *. cbn [fold_left].
  destruct Hin as [->|Hin].
  - destruct (computeBounds_row_grows vl boxes r) as (_ & _ & Hc & Hr).
    destruct (computeBounds_rows_grows vl rows (computeBounds_row vl boxes r))
      as [Hc' Hr']. unfold computeBounds_rows in *.
    split; intros Hflag; eapply aabb_within_trans; eauto.
  - now apply IH.
Qed.

Lemma Rmin_twice a m : Rmin (Rmin a m) m = Rmin a m.
Proof. unfold Rmin. repeat destruct (Rle_dec _ _); lra. Qed.

Lemma Rmax_twice a m : Rmax (Rmax a m) m = Rmax a m.
Proof. unfold Rmax. repeat destruct (Rle_dec _ _); lra. Qed.

Lemma min3_twice a m : min3 (min3 a m) m = min3 a m.
Proof. unfold min3; cbn. f_equal; apply Rmin_twice. Qed.

Lemma max3_twice a m : max3 (max3 a m) m = max3 a m.
Proof. unfold max3; cbn. f_equal; apply Rmax_twice. Qed.

Lemma computeBounds_row_twice vl boxes r :
  computeBounds_row vl (computeBounds_row vl boxes r) r
  = computeBounds_row vl boxes r.
Proof.
  destruct boxes as [cb rb]. unfold computeBounds_row.
  destruct (negb (Z.land (LAYERS r) vl =? 0)%Z); [|reflexivity].
  destruct (castShadows (VISIBILITY_STATE r)),
           (receiveShadows (VISIBILITY_STATE r)); cbn [aabb_min aabb_max];
    rewrite ?min3_twice, ?max3_twice; reflexivity.
Qed.

Lemma computeBounds_rows_push vl rows :
  forall boxes r,
    computeBounds_row vl (computeBounds_rows vl rows boxes) r
    = computeBounds_rows vl rows (computeBounds_row vl boxes r).
Proof.
  unfold computeBounds_rows.
  induction rows as [|r0 rows IH]; intros boxes r; cbn [fold_left];
    [reflexivity|].
  rewrite IH. f_equal. apply computeBounds_row_comm.
Qed.

Lemma computeBounds_rows_twice vl rows :
  forall boxes,
    computeBounds_rows vl rows (computeBounds_rows vl rows boxes)
    = computeBounds_rows vl rows boxes.
Proof.
  induction rows as [|r rows IH]; intros boxes; [reflexivity|].
  unfold computeBounds_rows at 1 2 3. cbn [fold_left].
  fold (computeBounds_rows vl rows (computeBounds_row vl boxes r)).
  fold (computeBounds_rows vl rows
          (computeBounds_row vl
             (computeBounds_rows vl rows (computeBounds_row vl boxes r)) r)).
  rewrite computeBounds_rows_push, computeBounds_row_twice. apply IH.
Qed.

Lemma computeBounds_row_fst vl cb rb rb' r :
  fst (computeBounds_row vl (cb, rb) r) = fst (computeBounds_row vl (cb, rb') r)
  /\ (row_visible vl r && castShadows (VISIBILITY_STATE r) = false ->
      fst (computeBounds_row vl (cb, rb) r) = cb).
Proof.
  unfold computeBounds_row, row_visible.
  destruct (negb (Z.land (LAYERS r) vl =? 0)%Z); cbn [fst andb];
    [|split; reflexivity].
  destruct (castShadows (VISIBILITY_STATE r)); split; intros;
    (reflexivity || discriminate).
Qed.

Lemma computeBounds_row_snd vl cb cb' rb r :
  snd (computeBounds_row vl (cb, rb) r) = snd (computeBounds_row vl (cb', rb) r)
  /\ (row_visible vl r && receiveShadows (VISIBILITY_STATE r) = false ->
      snd (computeBounds_row vl (cb, rb) r) = rb).
Proof.
  unfold computeBounds_row, row_visible.
  destruct (negb (Z.land (LAYERS r) vl =? 0)%Z); cbn [snd andb];
    [|split; reflexivity].
  destruct (receiveShadows (VISIBILITY_STATE r)); split; intros;
    (reflexivity || discriminate).
Qed.

(** The casters box ignores the receivers box and every row that is hidden or
    does not cast shadows. *)
Lemma computeBounds_rows_casters vl rows :
  forall cb rb rb',
    fst (computeBounds_rows vl rows (cb, rb))
    = fst (computeBounds_rows vl
             (List.filter (fun r => row_visible vl r
                                    && castShadows (VISIBILITY_STATE r)) rows)
             (cb, rb')).
Proof.
  unfold computeBounds_rows.
  induction rows as [|r rows IH]; intros cb rb rb'; [reflexivity|].
  cbn [fold_left List.filter].
  destruct (computeBounds_row_fst vl cb rb rb' r) as [Hsame Hskip].
  destruct (row_visible vl r && castShadows (VISIBILITY_STATE r)).
  - cbn [fold_left].
    destruct (computeBounds_row vl (cb, rb) r) as [cb1 rb1],
             (computeBounds_row vl (cb, rb') r) as [cb2 rb2].
    cbn [fst] in Hsame. subst cb2. apply IH.
  - specialize (Hskip eq_refl).
    destruct (computeBounds_row vl (cb, rb) r) as [cb1 rb1].
    cbn [fst] in Hskip. subst cb1. apply IH.
Qed.

Lemma computeBounds_rows_receivers vl rows :
  forall cb cb' rb,
    snd (computeBounds_rows vl rows (cb, rb))
    = snd (computeBounds_rows vl
             (List.filter (fun r => row_visible vl r
                                    && receiveShadows (VISIBILITY_STATE r))
                          rows)
             (cb', rb)).
Proof.
  unfold computeBounds_rows.
  induction rows as [|r rows IH]; intros cb cb' rb; [reflexivity|].
  cbn [fold_left List.filter].
  destruct (computeBounds_row_snd vl cb cb' rb r) as [Hsame Hskip].
  destruct (row_visible vl r && receiveShadows (VISIBILITY_STATE r)).
  - cbn [fold_left].
    destruct (computeBounds_row vl (cb, rb) r) as [cb1 rb1],
             (computeBounds_row vl (cb', rb) r) as [cb2 rb2].
    cbn [snd] in Hsame. subst rb2. apply IH.
  - specialize (Hskip eq_refl).
    destruct (computeBounds_row vl (cb, rb) r) as [cb1 rb1].
    cbn [snd] in Hskip. subst rb1. apply IH.
Qed.

End BoundsMore.

(** X10.  [computeBounds] only ever enlarges the two boxes: each returned box
    contains the box passed in, the casters box contains the world box of
    every visible row that casts shadows, and the receivers box that of every
    visible row that receives shadows. *)
Theorem computeBounds_encloses (s : FScene) (castersBox receiversBox : Aabb)
    (visibleLayers : Z) :
  aabb_within castersBox
    (fst (computeBounds s castersBox receiversBox visibleLayers))
  /\ aabb_within receiversBox
       (snd (computeBounds s castersBox receiversBox visibleLayers))
  /\ (forall r : RenderableRow,
        In r (SoA.rows (mRenderableData s)) ->
        row_visible visibleLayers r = true ->
        (castShadows (VISIBILITY_STATE r) = true ->
         aabb_within (row_aabb r)
           (fst (computeBounds s castersBox receiversBox visibleLayers)))
        /\ (receiveShadows (VISIBILITY_STATE r) = true ->
            aabb_within (row_aabb r)
              (snd (computeBounds s castersBox receiversBox visibleLayers)))).
Proof.
  unfold computeBounds.
  destruct (computeBounds_rows_grows visibleLayers
              (SoA.rows (mRenderableData s)) (castersBox, receiversBox))
    as [Hc Hr].
  split; [exact Hc|]. split; [exact Hr|].
  intros r Hin Hvis. now apply computeBounds_rows_contains.
Qed.

(** X11.  Feeding the boxes [computeBounds] returned back into
    [computeBounds] on the same rows changes nothing. *)
Theorem computeBounds_idempotent (s : FScene) (castersBox receiversBox : Aabb)
    (visibleLayers : Z) :
  let boxes := computeBounds s castersBox receiversBox visibleLayers in
  computeBounds s (fst boxes) (snd boxes) visibleLayers = boxes.
Proof.
  cbn zeta. unfold computeBounds.
  rewrite <- surjective_pairing. apply computeBounds_rows_twice.
Qed.

(** X12.  The two accumulators are independent: the casters box returned
    depends only on the casters box passed in and on the visible rows that
    cast shadows, the receivers box only on the receivers box passed in and on
    the visible rows that receive shadows. *)
Theorem computeBounds_accumulators_independent (s s' : FScene)
    (castersBox receiversBox otherBox : Aabb) (visibleLayers : Z) :
  (List.filter (fun r => row_visible visibleLayers r
                         && castShadows (VISIBILITY_STATE r))
               (SoA.rows (mRenderableData s))
   = List.filter (fun r => row_visible visibleLayers r
                           && castShadows (VISIBILITY_STATE r))
                 (SoA.rows (mRenderableData s')) ->
   fst (computeBounds s castersBox receiversBox visibleLayers)
   = fst (computeBounds s' castersBox otherBox visibleLayers))
  /\ (List.filter (fun r => row_visible visibleLayers r
                            && receiveShadows (VISIBILITY_STATE r))
                  (SoA.rows (mRenderableData s))
      = List.filter (fun r => row_visible visibleLayers r
                              && receiveShadows (VISIBILITY_STATE r))
                    (SoA.rows (mRenderableData s')) ->
      snd (computeBounds s castersBox receiversBox visibleLayers)
      = snd (computeBounds s' otherBox receiversBox visibleLayers)).
Proof.
  unfold computeBounds. split; intros Hsame.
  - rewrite (computeBounds_rows_casters _ (SoA.rows (mRenderableData s))
               castersBox receiversBox receiversBox).
    rewrite (computeBounds_rows_casters _ (SoA.rows (mRenderableData s'))
               castersBox otherBox receiversBox).
    now rewrite Hsame.
  - rewrite (computeBounds_rows_receivers _ (SoA.rows (mRenderableData s))
               castersBox castersBox receiversBox).
    rewrite (computeBounds_rows_receivers _ (SoA.rows (mRenderableData s'))
               otherBox castersBox receiversBox).
    now rewrite Hsame.
Qed.

Lemma computeBounds_accumulators_independent_witness :
  fst (computeBounds (scene_of_renderables [row_unit_box; row_far_box])
         box_at_origin box_at_origin 1)
  = fst (computeBounds (scene_of_renderables [row_unit_box; row_far_box])
           box_at_origin (row_aabb row_far_box) 1).
Proof.
  apply (computeBounds_accumulators_independent
           (scene_of_renderables [row_unit_box; row_far_box])
           (scene_of_renderables [row_unit_box; row_far_box])
           box_at_origin box_at_origin (row_aabb row_far_box) 1).
  reflexivity.
Defined.

Lemma computeBounds_encloses_witness :
  aabb_within (row_aabb row_unit_box)
    (fst (computeBounds (scene_of_renderables [row_unit_box; row_far_box])
            box_at_origin box_at_origin 1)).
Proof.
  destruct (computeBounds_encloses
              (scene_of_renderables [row_unit_box; row_far_box])
              box_at_origin box_at_origin 1) as (_ & _ & Hrows).
  apply (Hrows row_unit_box).
  - left. reflexivity.
  - reflexivity.
  - reflexivity.
Defined.

(* ================================================================== *)
(** * More about [prepareLights] *)
(* ================================================================== *)

Section LightsMore.
Local Open Scope Z_scope.

Lemma fill_gpu_slot_beyond lcm rows :
  forall i gpu slot,
    i - DIRECTIONAL_LIGHTS_COUNT + Z.of_nat (length rows) <= slot ->
    mLights (fill_gpu lcm rows i gpu) !! slot = mLights gpu !! slot.
Proof.
  induction rows as [|r rows IH]; intros i gpu slot Hslot; [reflexivity|].
  cbn [fill_gpu length] in *. rewrite IH by lia.
  unfold write_light, setLightParameters; cbn [mLights].
  apply lookup_insert_ne. lia.
Qed.

(** Row [i + j] ends up packed in slot [i + j - 1]; the two components of
    [spotScaleOffset] that line 222 does not assign keep the value the slot
    had before the call. *)
Lemma fill_gpu_packed lcm rows :
  forall i gpu (j : nat) r,
    rows !! j = Some r ->
    mLights (fill_gpu lcm rows i gpu)
      !! (i + Z.of_nat j - DIRECTIONAL_LIGHTS_COUNT)
    = Some (packed_light lcm r
              (getLightParameters gpu
                 (i + Z.of_nat j - DIRECTIONAL_LIGHTS_COUNT))).
Proof.
  induction rows as [|r0 rows IH]; intros i gpu j r Hj; [discriminate|].
  destruct j as [|j]; cbn [fill_gpu].
  - injection Hj as ->. rewrite fill_gpu_slot_other by lia.
    replace (i + Z.of_nat 0 - DIRECTIONAL_LIGHTS_COUNT)
      with (i - DIRECTIONAL_LIGHTS_COUNT) by lia.
    unfold write_light, setLightParameters; cbn [mLights].
    now rewrite lookup_insert_eq.
  - cbn in Hj.
    replace (i + Z.of_nat (S j) - DIRECTIONAL_LIGHTS_COUNT)
      with (i + 1 + Z.of_nat j - DIRECTIONAL_LIGHTS_COUNT) by lia.
    rewrite (IH (i + 1) (write_light lcm i r0 gpu) j r Hj).
    do 2 f_equal. unfold getLightParameters, write_light, setLightParameters.
    cbn [mLights]. rewrite lookup_insert_ne by lia. reflexivity.
Qed.

End LightsMore.

(** X13.  When [LightSoA] holds at most [CONFIG_MAX_LIGHT_COUNT + 1] rows,
    after [prepareLights] GPU slot [i - 1] holds the parameters of row [i]
    for every local-light row [i >= 1]: its position with the light's
    inverse squared falloff, colour and intensity, direction with a zero
    fourth component, and the spot scale and offset in the first two
    components of [spotScaleOffset], whose last two components stay as they
    were.  Slots from [size - 1] on (and row 0) are not touched. *)
Theorem prepareLights_slots (CONFIG_MAX_LIGHT_COUNT : Z)
    (std_sort : list (LightRow * float) -> list (LightRow * float))
    (engine : FEngine) (camera : CameraInfo) (s : FScene) :
  (SoA.size (mLightData s) <= CONFIG_MAX_LIGHT_COUNT + 1)%Z ->
  exists s' : FScene,
    prepareLights CONFIG_MAX_LIGHT_COUNT std_sort engine camera s = Ok s'
    /\ (forall (i : nat) (r : LightRow),
          (1 <= i)%nat ->
          SoA.rows (mLightData s) !! i = Some r ->
          mLights (mGpuLightData s') !! (Z.of_nat i - 1)%Z
          = Some (packed_light (getLightManager engine) r
                    (getLightParameters (mGpuLightData s)
                       (Z.of_nat i - 1)%Z)))
    /\ (forall slot : Z,
          (slot < 0 \/ SoA.size (mLightData s) - 1 <= slot)%Z ->
          mLights (mGpuLightData s') !! slot
          = mLights (mGpuLightData s) !! slot).
Proof.
  intros Hsize. eexists. split; [now apply prepareLights_small|].
  cbn [mGpuLightData]. unfold commit_lights, commit, invalidate.
  cbn [mLights]. split.
  - intros i r Hi Hr. destruct i as [|i]; [lia|].
    pose proof (fill_gpu_packed (getLightManager engine)
                  (drop (Z.to_nat DIRECTIONAL_LIGHTS_COUNT)
                        (SoA.rows (mLightData s)))
                  DIRECTIONAL_LIGHTS_COUNT (mGpuLightData s) i r) as Hp.
    unfold DIRECTIONAL_LIGHTS_COUNT in *.
    replace (1 + Z.of_nat i - 1)%Z with (Z.of_nat (S i) - 1)%Z in Hp by lia.
    apply Hp. rewrite lookup_drop. exact Hr.
  - intros slot [Hneg|Hbig].
    + apply fill_gpu_slot_other. unfold DIRECTIONAL_LIGHTS_COUNT. lia.
    + destruct (Z.lt_ge_cases slot 0) as [Hneg|Hpos].
      * apply fill_gpu_slot_other. unfold DIRECTIONAL_LIGHTS_COUNT. lia.
      * apply fill_gpu_slot_beyond.
        unfold DIRECTIONAL_LIGHTS_COUNT, SoA.size in *.
        rewrite length_drop. lia.
Qed.

Lemma prepareLights_slots_witness :
  exists s' : FScene,
    prepareLights 2 insertion_sort engine_demo camera_origin scene_two_lights
    = Ok s'
    /\ mLights (mGpuLightData s') !! 1%Z
       = Some (packed_light (getLightManager engine_demo) (light_at 1 2)
                 (getLightParameters (mGpuLightData scene_two_lights) 1%Z)).
Proof.
  destruct (prepareLights_slots 2 insertion_sort engine_demo camera_origin
              scene_two_lights) as (s' & Hrun & Hslots & _).
  - unfold SoA.size. cbn. lia.
  - exists s'. split; [exact Hrun|].
    apply (Hslots 2%nat (light_at 1 2)); [lia|reflexivity].
Defined.

(** X14.  [prepare] followed by [prepareLights]: when the scene has at most
    [CONFIG_MAX_LIGHT_COUNT] alive local lights, both calls return, the rows
    gathered by [prepare] are left untouched, and the GPU buffer is asked for
    one slot write per local light, slots 0, 1, ... in order, then the
    invalidate and one commit. *)
Theorem prepare_then_prepareLights (CONFIG_MAX_LIGHT_COUNT : Z)
    (std_sort : list (LightRow * float) -> list (LightRow * float))
    (engine : FEngine) (order : list Z) (wot : mat4f) (camera : CameraInfo)
    (s : FScene) :
  order ≡ₚ elements (mEntities s) ->
  (Z.of_nat (size (mEntities s)) + 15 < 2 ^ SIZE_BITS)%Z ->
  let lights :=
    Z.of_nat (size (filter (fun e => has_local_light engine e) (mEntities s)))
  in
  (lights <= CONFIG_MAX_LIGHT_COUNT)%Z ->
  exists s' s'' : FScene,
    prepare engine order wot s = Ok s'
    /\ prepareLights CONFIG_MAX_LIGHT_COUNT std_sort engine camera s' = Ok s''
    /\ mLightData s'' = mLightData s'
    /\ mRenderableData s'' = mRenderableData s'
    /\ trace (mGpuLightData s'')
       = trace (mGpuLightData s)
         ++ map SlotWrite (seqZ 0 lights)
         ++ [Invalidate 0 (lights + 1); Commit].
Proof.
  intros Hp Hfit lights Hk.
  set (s' := mkScene (mEntities s)
          (SoA.mk (map (entity_renderable_row engine wot)
                       (filter (fun e => has_renderable engine e) order))
                  (Z.max (SoA.capacity (mRenderableData s))
                         (capacity_bound (Z.of_nat (size (mEntities s))))))
          (SoA.mk (directional_after engine wot 0%R order zero_init
                     :: map (entity_light_row engine wot)
                            (filter (fun e => has_local_light engine e) order))
                  (Z.max (SoA.capacity (mLightData s))
                         (capacity_bound (Z.of_nat (size (mEntities s))))))
          (mSkybox s) (mGpuLightData s)).
  assert (Hsize : SoA.size (mLightData s') = (lights + 1)%Z).
  { unfold SoA.size, s'. cbn [mLightData SoA.rows length].
    rewrite length_map, (count_over_order _ (mEntities s) order Hp).
    unfold lights. lia. }
  exists s'. eexists. split; [now apply prepare_spec|].
  split; [apply prepareLights_small; lia|].
  cbn [mLightData mRenderableData mGpuLightData]. repeat split.
  rewrite commit_lights_trace by lia. rewrite Hsize.
  replace (lights + 1 - 1)%Z with lights by lia. reflexivity.
Qed.

Lemma prepare_then_prepareLights_witness :
  exists s' s'' : FScene,
    prepare engine_demo [3; 4; 2; 1]%Z identity4 scene_demo = Ok s'
    /\ prepareLights 256 insertion_sort engine_demo camera_origin s' = Ok s''.
Proof.
  destruct (prepare_then_prepareLights 256 insertion_sort engine_demo
              [3; 4; 2; 1]%Z identity4 camera_origin scene_demo)
    as (s' & s'' & H1 & H2 & _).
  - exact scene_demo_order.
  - exact scene_demo_fits.
  - vm_compute. discriminate.
  - exists s', s''. split; assumption.
Defined.

(** X15.  [prepare] followed by [prepareLights]: when the scene has more than
    [CONFIG_MAX_LIGHT_COUNT] alive local lights, [prepare] returns and
    [prepareLights] then stores past the end of its [distances] array. *)
Theorem prepare_then_prepareLights_overflow (CONFIG_MAX_LIGHT_COUNT : Z)
    (std_sort : list (LightRow * float) -> list (LightRow * float))
    (engine : FEngine) (order : list Z) (wot : mat4f) (camera : CameraInfo)
    (s : FScene) :
  order ≡ₚ elements (mEntities s) ->
  (Z.of_nat (size (mEntities s)) + 15 < 2 ^ SIZE_BITS)%Z ->
  (0 <= CONFIG_MAX_LIGHT_COUNT)%Z ->
  (Z.of_nat (size (filter (fun e => has_local_light engine e) (mEntities s)))
   > CONFIG_MAX_LIGHT_COUNT)%Z ->
  exists s' : FScene,
    prepare engine order wot s = Ok s'
    /\ prepareLights CONFIG_MAX_LIGHT_COUNT std_sort engine camera s'
       = Undefined.
Proof.
  intros Hp Hfit Hk Hmany. eexists. split; [now apply prepare_spec|].
  apply prepareLights_overflow; [exact Hk|].
  unfold SoA.size. cbn [mLightData SoA.rows length].
  rewrite length_map, (count_over_order _ (mEntities s) order Hp). lia.
Qed.

Lemma prepare_then_prepareLights_overflow_witness :
  exists s' : FScene,
    prepare engine_demo [3; 4; 2; 1]%Z identity4 scene_demo = Ok s'
    /\ prepareLights 0 insertion_sort engine_demo camera_origin s' = Undefined.
Proof.
  apply (prepare_then_prepareLights_overflow 0 insertion_sort engine_demo
           [3; 4; 2; 1]%Z identity4 camera_origin scene_demo).
  - exact scene_demo_order.
  - exact scene_demo_fits.
  - lia.
  - vm_compute. reflexivity.
Defined.

(* ================================================================== *)
(** * [updateUBOs] *)
(* ================================================================== *)

Section UpdateUBOs.
Local Open Scope Z_scope.

Lemma foldM_app {A S} (body : A -> S -> outcome S) (l1 l2 : list A) (s : S) :
  foldM body (l1 ++ l2) s = foldM body l1 s ≫= foldM body l2.
Proof.
  revert s. induction l1 as [|a l1 IH]; intros s; [reflexivity|].
  cbn [foldM app]. destruct (body a s); cbn [mbind outcome_bind]; auto.
Qed.

Lemma elementAt_get_in_bounds {Row A} (col : Row -> A) (s : SoA.t Row)
      (i : nat) (r : Row) :
  SoA.rows s !! i = Some r -> elementAt_get (Z.of_nat i) col s = Ok (col r).
Proof.
  intros Hr. unfold elementAt_get.
  destruct (Z.leb_spec 0 (Z.of_nat i)); [|lia].
  now rewrite Nat2Z.id, Hr.
Qed.

Lemma elementAt_get_out_of_bounds {Row A} (col : Row -> A) (s : SoA.t Row)
      (i : Z) :
  SoA.size s <= i -> elementAt_get i col s = Undefined.
Proof.
  intros Hi. unfold elementAt_get, SoA.size in *.
  destruct (0 <=? i); [|reflexivity].
  rewrite lookup_ge_None_2 by lia. reflexivity.
Qed.

Lemma updateUBOs_loop_in_bounds (s : FScene) (n : nat) :
  forall (first : nat) ubos,
    (first + n <= length (SoA.rows (mRenderableData s)))%nat ->
    updateUBOs s (mkRange (Z.of_nat first) (Z.of_nat first + Z.of_nat n)) ubos
    = Ok (pushes (take n (drop first (SoA.rows (mRenderableData s)))) ubos).
Proof.
  unfold updateUBOs, range_indices. cbn [range_first range_last].
  induction n as [|n IH]; intros first ubos Hlen.
  - replace (Z.of_nat first + Z.of_nat 0 - Z.of_nat first) with 0 by lia.
    reflexivity.
  - replace (Z.of_nat first + Z.of_nat (S n) - Z.of_nat first)
      with (Z.of_nat (S n)) by lia.
    rewrite seqZ_cons by lia. cbn [foldM].
    destruct (lookup_lt_is_Some_2 (SoA.rows (mRenderableData s)) first)
      as [r Hr]; [lia|].
    rewrite !(elementAt_get_in_bounds _ _ _ r Hr).
    cbn [mbind outcome_bind].
    rewrite (drop_S _ r first Hr). cbn [take]. unfold pushes.
    cbn [fold_left].
    specialize (IH (S first)
                  (updateLocalUBO (RENDERABLE_INSTANCE r) (WORLD_TRANSFORM r)
                     ubos)).
    replace (Z.of_nat (S first) + Z.of_nat n - Z.of_nat (S first))
      with (Z.pred (Z.of_nat (S n))) in IH by lia.
    replace (Z.of_nat (S first)) with (Z.succ (Z.of_nat first)) in IH by lia.
    apply IH. lia.
Qed.

Lemma updateUBOs_loop_out_of_bounds (s : FScene) (n : nat) :
  forall (first : Z) ubos,
    0 <= first -> (1 <= n)%nat ->
    SoA.size (mRenderableData s) < first + Z.of_nat n ->
    foldM
      (fun i ubos =>
         ri ← elementAt_get i RENDERABLE_INSTANCE (mRenderableData s);
         worldTransform ← elementAt_get i WORLD_TRANSFORM (mRenderableData s);
         Ok (updateLocalUBO ri worldTransform ubos))
      (seqZ first (Z.of_nat n)) ubos
    = Undefined.
Proof.
  induction n as [|n IH]; intros first ubos Hfirst Hn Hbig; [lia|].
  rewrite seqZ_cons by lia. cbn [foldM].
  destruct (Z.le_gt_cases (SoA.size (mRenderableData s)) first) as [Hout|Hin].
  - rewrite (elementAt_get_out_of_bounds RENDERABLE_INSTANCE) by exact Hout.
    reflexivity.
  - unfold SoA.size in Hin.
    destruct (lookup_lt_is_Some_2 (SoA.rows (mRenderableData s))
                (Z.to_nat first)) as [r Hr]; [lia|].
    pose proof (elementAt_get_in_bounds RENDERABLE_INSTANCE _ _ r Hr) as H1.
    pose proof (elementAt_get_in_bounds WORLD_TRANSFORM _ _ r Hr) as H2.
    rewrite Z2Nat.id in H1, H2 by lia. rewrite H1, H2.
    cbn [mbind outcome_bind].
    replace (Z.pred (Z.of_nat (S n))) with (Z.of_nat n) by lia.
    apply IH; unfold SoA.size in *; lia.
Qed.

Lemma pushes_untouched rows :
  forall ubos ri,
    Forall (fun r => RENDERABLE_INSTANCE r <> ri) rows ->
    pushes rows ubos !! ri = ubos !! ri.
Proof.
  unfold pushes. induction rows as [|r rows IH]; intros ubos ri Hall;
    [reflexivity|].
  apply Forall_cons in Hall as [Hr Hall]. cbn [fold_left].
  rewrite IH by assumption. unfold updateLocalUBO.
  now apply lookup_insert_ne.
Qed.

Lemma pushes_last before r after ubos :
  Forall (fun r' => RENDERABLE_INSTANCE r' <> RENDERABLE_INSTANCE r) after ->
  pushes (before ++ r :: after) ubos !! RENDERABLE_INSTANCE r
  = Some (WORLD_TRANSFORM r).
Proof.
  intros Hafter. unfold pushes. rewrite fold_left_app. cbn [fold_left].
  fold (pushes after
          (updateLocalUBO (RENDERABLE_INSTANCE r) (WORLD_TRANSFORM r)
             (fold_left
                (fun m r0 => updateLocalUBO (RENDERABLE_INSTANCE r0)
                               (WORLD_TRANSFORM r0) m) before ubos))).
  rewrite pushes_untouched by assumption.
  unfold updateLocalUBO. apply lookup_insert_eq.
Qed.

(** X16.  For a range within the rows of [RenderableSoA], [updateUBOs]
    returns; the uniform block of an instance that no visited row refers to
    is left as it was, and the uniform block of a visited row's instance
    holds that row's world transform (the transform of the last visited row,
    should several visited rows refer to the same instance). *)
Theorem updateUBOs_pushes (s : FScene) (first last : Z) (ubos : gmap Z mat4f) :
  0 <= first -> first <= last -> last <= SoA.size (mRenderableData s) ->
  let visited :=
    take (Z.to_nat (last - first))
         (drop (Z.to_nat first) (SoA.rows (mRenderableData s))) in
  exists ubos' : gmap Z mat4f,
    updateUBOs s (mkRange first last) ubos = Ok ubos'
    /\ (forall ri : Z,
          Forall (fun r => RENDERABLE_INSTANCE r <> ri) visited ->
          ubos' !! ri = ubos !! ri)
    /\ (forall before r after,
          visited = before ++ r :: after ->
          Forall (fun r' => RENDERABLE_INSTANCE r' <> RENDERABLE_INSTANCE r)
                 after ->
          ubos' !! RENDERABLE_INSTANCE r = Some (WORLD_TRANSFORM r)).
Proof.
  intros H0 Hle Hsize visited. unfold SoA.size in Hsize.
  exists (pushes visited ubos). split; [|split].
  - pose proof (updateUBOs_loop_in_bounds s (Z.to_nat (last - first))
                  (Z.to_nat first) ubos ltac:(lia)) as Hrun.
    rewrite !Z2Nat.id in Hrun by lia.
    replace (first + (last - first)) with last in Hrun by lia.
    exact Hrun.
  - intros ri Hall. now apply pushes_untouched.
  - intros before r after -> Hafter. now apply pushes_last.
Qed.

(** X17.  An empty range makes [updateUBOs] do nothing, wherever it lies; a
    non-empty range that reaches past the capacity of [RenderableSoA] makes it
    read outside the storage of the container. *)
Theorem updateUBOs_bounds (s : FScene) (first last : Z) (ubos : gmap Z mat4f) :
  updateUBOs s (mkRange first first) ubos = Ok ubos
  /\ (0 <= first -> first < last ->
      SoA.size (mRenderableData s) <= SoA.capacity (mRenderableData s) ->
      SoA.capacity (mRenderableData s) < last ->
      updateUBOs s (mkRange first last) ubos = Undefined).
Proof.
  split.
  - unfold updateUBOs, range_indices. cbn [range_first range_last].
    now rewrite Z.sub_diag.
  - intros H0 Hlt Hsize Hbig. unfold updateUBOs, range_indices.
    cbn [range_first range_last].
    rewrite <- (Z2Nat.id (last - first)) by lia.
    apply updateUBOs_loop_out_of_bounds; lia.
Qed.

(** X18.  Updating two adjacent ranges one after the other is the same as
    updating their union in one call, failures included. *)
Theorem updateUBOs_adjacent (s : FScene) (first mid last : Z)
    (ubos : gmap Z mat4f) :
  first <= mid -> mid <= last ->
  updateUBOs s (mkRange first last) ubos
  = updateUBOs s (mkRange first mid) ubos ≫= updateUBOs s (mkRange mid last).
Proof.
  intros H1 H2. unfold updateUBOs, range_indices.
  cbn [range_first range_last].
  replace (last - first) with ((mid - first) + (last - mid)) by lia.
  rewrite seqZ_app by lia.
  replace (first + (mid - first)) with mid by lia.
  apply foldM_app.
Qed.

End UpdateUBOs.

Lemma updateUBOs_pushes_witness :
  exists ubos' : gmap Z mat4f,
    updateUBOs (scene_of_renderables [row_unit_box; row_far_box])
      (mkRange 0 2) ∅ = Ok ubos'
    /\ ubos' !! 1%Z = Some identity4.
Proof.
  destruct (updateUBOs_pushes
              (scene_of_renderables [row_unit_box; row_far_box]) 0 2 ∅)
    as (ubos' & Hrun & _ & Hpushed).
  - lia.
  - lia.
  - unfold SoA.size. cbn. lia.
  - exists ubos'. split; [exact Hrun|].
    apply (Hpushed [] row_unit_box [row_far_box]); [reflexivity|].
    repeat constructor. cbn. lia.
Defined.

Lemma updateUBOs_bounds_witness :
  updateUBOs (scene_of_renderables [row_unit_box; row_far_box])
    (mkRange 1 3) ∅ = Undefined.
Proof.
  apply (updateUBOs_bounds
           (scene_of_renderables [row_unit_box; row_far_box]) 1 3 ∅).
  - lia.
  - lia.
  - unfold SoA.size. cbn. lia.
  - cbn. lia.
Defined.

Lemma updateUBOs_adjacent_witness :
  updateUBOs (scene_of_renderables [row_unit_box; row_far_box])
    (mkRange 0 2) ∅
  = updateUBOs (scene_of_renderables [row_unit_box; row_far_box])
      (mkRange 0 1) ∅
    ≫= updateUBOs (scene_of_renderables [row_unit_box; row_far_box])
         (mkRange 1 2).
Proof.
  apply (updateUBOs_adjacent
           (scene_of_renderables [row_unit_box; row_far_box]) 0 1 2 ∅); lia.
Defined.

(** X19.  [prepare] followed by [updateUBOs] over all the rows: both return,
    and the uniform block of every alive renderable with a transform holds
    the world-origin transform times the entity's world transform, provided
    no other such entity of the scene shares its renderable instance. *)
Theorem prepare_then_updateUBOs (engine : FEngine) (order : list Z)
    (wot : mat4f) (s : FScene) (ubos : gmap Z mat4f) :
  order ≡ₚ elements (mEntities s) ->
  (Z.of_nat (size (mEntities s)) + 15 < 2 ^ SIZE_BITS)%Z ->
  exists (s' : FScene) (ubos' : gmap Z mat4f),
    prepare engine order wot s = Ok s'
    /\ updateUBOs s' (mkRange 0 (SoA.size (mRenderableData s'))) ubos
       = Ok ubos'
    /\ (forall e : Z,
          e ∈ mEntities s ->
          has_renderable engine e = true ->
          (forall e' : Z,
             e' ∈ mEntities s -> has_renderable engine e' = true ->
             rcm_getInstance (getRenderableManager engine) e'
             = rcm_getInstance (getRenderableManager engine) e ->
             e' = e) ->
          ubos' !! rcm_getInstance (getRenderableManager engine) e
          = Some (mulm4 wot
                    (getWorldTransform (getTransformManager engine)
                       (tcm_getInstance (getTransformManager engine) e)))).
Proof.
  intros Hp Hfit.
  set (gathered := filter (fun e => has_renderable engine e) order).
  set (rows := map (entity_renderable_row engine wot) gathered).
  eexists. exists (pushes rows ubos).
  split; [now apply prepare_spec|].
  cbn [mRenderableData]. fold gathered. fold rows. split.
  - pose proof (updateUBOs_loop_in_bounds
                  (mkScene (mEntities s)
                     (SoA.mk rows
                        (Z.max (SoA.capacity (mRenderableData s))
                           (capacity_bound (Z.of_nat (size (mEntities s))))))
                     (SoA.mk
                        (directional_after engine wot 0%R order zero_init
                         :: map (entity_light_row engine wot)
                              (filter (fun e => has_local_light engine e)
                                      order))
                        (Z.max (SoA.capacity (mLightData s))
                           (capacity_bound (Z.of_nat (size (mEntities s))))))
                     (mSkybox s) (mGpuLightData s))
                  (length rows) 0%nat ubos) as Hrun.
    cbn [mRenderableData SoA.rows drop] in Hrun.
    rewrite firstn_all in Hrun. unfold SoA.size. cbn [SoA.rows].
    apply Hrun. cbn. lia.
  - intros e He Hre Hinj.
    assert (Hin : e ∈ gathered).
    { apply list_elem_of_filter. split; [now rewrite Hre|].
      rewrite Hp. now apply elem_of_elements. }
    assert (Hnodup : NoDup gathered).
    { apply NoDup_filter. rewrite Hp. apply NoDup_elements. }
    apply list_elem_of_split in Hin as (l1 & l2 & Hsplit).
    rewrite Hsplit in Hnodup.
    apply NoDup_app in Hnodup as (_ & _ & Hnodup).
    apply NoDup_cons in Hnodup as [Hnotin _].
    unfold rows. rewrite Hsplit, map_app. cbn [map].
    change (rcm_getInstance (getRenderableManager engine) e)
      with (RENDERABLE_INSTANCE (entity_renderable_row engine wot e)).
    rewrite pushes_last; [reflexivity|].
    apply Forall_forall. intros r Hr.
    apply list_elem_of_In, in_map_iff in Hr as (e' & <- & He').
    apply list_elem_of_In in He'.
    cbn [entity_renderable_row renderable_row RENDERABLE_INSTANCE].
    intros Heq. apply Hnotin.
    assert (He'g : e' ∈ gathered)
      by (rewrite Hsplit; apply elem_of_app; right; now right).
    apply list_elem_of_filter in He'g as [Hre' Hin'].
    rewrite Hp in Hin'. apply elem_of_elements in Hin'.
    rewrite <- (Hinj e' Hin' (Is_true_true_1 _ Hre') Heq). exact He'.
Qed.

Lemma prepare_then_updateUBOs_witness :
  exists (s' : FScene) (ubos' : gmap Z mat4f),
    prepare engine_demo [3; 4; 2; 1]%Z identity4 scene_demo = Ok s'
    /\ updateUBOs s' (mkRange 0 (SoA.size (mRenderableData s'))) ∅ = Ok ubos'.
Proof.
  destruct (prepare_then_updateUBOs engine_demo [3; 4; 2; 1]%Z identity4
              scene_demo ∅) as (s' & ubos' & H1 & H2 & _).
  - exact scene_demo_order.
  - exact scene_demo_fits.
  - exists s', ubos'. split; assumption.
Defined.

(* ================================================================== *)
(** * Scene membership *)
(* ================================================================== *)



(** X21.  Setting the same skybox twice is the same as setting it once, and
    replacing a skybox by another leaves the scene as if only the second had
    been set: for a scene with no skybox registered and a first skybox whose
    entity was not a member, the entity set ends up as the original set plus
    the entity of the second skybox. *)
Theorem setSkybox_replace (s : FScene) (A B : FSkybox) :
  setSkybox (Some A) (setSkybox (Some A) s) = setSkybox (Some A) s
  /\ (mSkybox s = None -> (getEntity A ∉ mEntities s) ->
      setSkybox (Some B) (setSkybox (Some A) s) = setSkybox (Some B) s).
Proof.
  destruct s as [es rd ld sb gpu], A as [a], B as [b]. split.
  - unfold setSkybox, addEntity, remove, with_entities.
    destruct sb as [[old]|];
      cbn [mEntities mRenderableData mLightData mSkybox mGpuLightData
           getEntity];
      f_equal; apply set_eq; intros x; set_unfold;
      destruct (decide (x = a)); naive_solver.
  - cbn [mSkybox mEntities getEntity]. intros -> Hfresh.
    unfold setSkybox, addEntity, remove, with_entities;
      cbn [mEntities mRenderableData mLightData mSkybox mGpuLightData
           getEntity].
    f_equal. apply set_eq. intros x. set_unfold.
    destruct (decide (x = a)); naive_solver.
Qed.

Lemma setSkybox_replace_witness :
  setSkybox (Some {| getEntity := 9 |}) (setSkybox (Some skybox_7) scene_empty)
  = setSkybox (Some {| getEntity := 9 |}) scene_empty.
Proof.
  apply (setSkybox_replace scene_empty skybox_7 {| getEntity := 9 |}).
  - reflexivity.
  - cbn. apply not_elem_of_empty.
Defined.

(* ================================================================== *)
(** * Directions *)
(* ================================================================== *)

Section DirectionsMore.
Local Open Scope R_scope.

Lemma dot3_scale3_l (k : float) (v w : float3) :
  dot3 (scale3 k v) w = k * dot3 v w.
Proof. destruct v, w. unfold dot3, scale3, float; cbn. ring. Qed.

(** The inverse-transpose keeps the pairing of a direction with a transformed
    vector. *)
Lemma inverse_transpose_dot (m : mat3f) (d t : float3) :
  det3 m <> 0 ->
  dot3 (mulv3 (transpose (inverse m)) d) (mulv3 m t) = dot3 d t.
Proof.
  destruct m as [[a0 a1 a2] [b0 b1 b2] [c0 c1 c2]], d as [d0 d1 d2],
    t as [t0 t1 t2].
  intros Hdet. unfold inverse.
  set (D := det3 _) in *. set (k := 1 / D).
  assert (Hk : k * D = 1) by (unfold k; field; exact Hdet).
  assert (HD : D = a0 * (b1 * c2 - b2 * c1) + a1 * (b2 * c0 - b0 * c2)
                   + a2 * (b0 * c1 - b1 * c0))
    by (unfold D, det3, dot3, cross3; simpl; unfold float; ring).
  clearbody k D.
  cbv [mulv3 transpose add3 scale3 cross3 dot3 x3 y3 z3 m3c0 m3c1 m3c2].
  unfold float.
  transitivity (k * D * (d0 * t0 + d1 * t1 + d2 * t2));
    [rewrite HD; ring|rewrite Hk; ring].
Qed.

End DirectionsMore.

(** X22.  The world direction computed for a light stays perpendicular to
    whatever its local direction was perpendicular to: if the local direction
    [d] is orthogonal to a vector [t], the stored direction is orthogonal to
    the transformed [t], for every invertible upper-left 3x3, uniform scaling
    or not. *)
Theorem world_direction_keeps_perpendicular (worldTransform : mat4f)
    (d t : float3) :
  det3 (upperLeft worldTransform) <> 0%R ->
  dot3 d t = 0%R ->
  dot3 (world_direction worldTransform d) (mulv3 (upperLeft worldTransform) t)
  = 0%R.
Proof.
  intros Hdet Hperp. unfold world_direction, normalize.
  rewrite dot3_scale3_l, inverse_transpose_dot by exact Hdet.
  rewrite Hperp. unfold float. ring.
Qed.

Lemma world_direction_keeps_perpendicular_witness :
  dot3 (world_direction identity4 (mkFloat3 0 (-1) 0))
       (mulv3 (upperLeft identity4) (mkFloat3 1 0 0))
  = 0%R.
Proof.
  apply (world_direction_keeps_perpendicular identity4 (mkFloat3 0 (-1) 0)
           (mkFloat3 1 0 0)).
  - unfold det3, dot3, cross3; simpl. lra.
  - unfold dot3; simpl. lra.
Defined.

(** X23.  After [prepare], row 0 of [LightSoA] has a zero position and
    radius and a zero visibility slot.  In exact real arithmetic (the [float]
    of this development: no rounding, overflow or NaN; the binary32
    arithmetic of the code does not have this property), when every alive
    directional light of non-negative intensity in the scene has an
    invertible world transform and a non-zero local direction, row 0 is
    either the zeroed row or carries a direction of unit length. *)
Theorem prepare_directional_row (engine : FEngine) (order : list Z)
    (wot : mat4f) (s : FScene) :
  order ≡ₚ elements (mEntities s) ->
  (Z.of_nat (size (mEntities s)) + 15 < 2 ^ SIZE_BITS)%Z ->
  exists (s' : FScene) (row0 : LightRow),
    prepare engine order wot s = Ok s'
    /\ SoA.rows (mLightData s') !! 0%nat = Some row0
    /\ POSITION_RADIUS row0 = zero4
    /\ VISIBILITY row0 = 0%Z
    /\ ((forall e : Z,
           e ∈ mEntities s ->
           overwrites_directional engine 0 e = true ->
           det3 (upperLeft (entity_transform engine wot e)) <> 0%R
           /\ getLocalDirection (getLightManager engine)
                (lcm_getInstance (getLightManager engine) e) <> zero3) ->
        row0 = zero_init \/ length3 (DIRECTION row0) = 1%R).
Proof.
  intros Hp Hfit. eexists. eexists. split; [now apply prepare_spec|].
  cbn [mLightData SoA.rows lookup list_lookup]. split; [reflexivity|].
  destruct (directional_after_cases engine wot 0%R order zero_init)
    as [->|(e & Hin & He & ->)].
  - repeat split. intros _. now left.
  - repeat split. intros Hgood. right.
    rewrite Hp in Hin. apply elem_of_elements in Hin.
    destruct (Hgood e Hin He) as [Hdet Hdir].
    cbn [entity_directional_row DIRECTION].
    now apply world_direction_unit.
Qed.

Lemma prepare_directional_row_witness :
  exists (s' : FScene) (row0 : LightRow),
    prepare engine_demo [3; 4; 2; 1]%Z identity4 scene_demo = Ok s'
    /\ SoA.rows (mLightData s') !! 0%nat = Some row0
    /\ POSITION_RADIUS row0 = zero4.
Proof.
  destruct (prepare_directional_row engine_demo [3; 4; 2; 1]%Z identity4
              scene_demo) as (s' & row0 & H1 & H2 & H3 & _).
  - exact scene_demo_order.
  - exact scene_demo_fits.
  - exists s', row0. repeat split; assumption.
Defined.

(* ================================================================== *)
(** * Counts and membership *)
(* ================================================================== *)

(** X24.  Adding to the scene an entity that is not yet a member raises
    [getRenderableCount] by one when the entity is an alive renderable and
    leaves it unchanged otherwise; likewise [getLightCount] for lights. *)
Theorem counts_after_addEntity (engine : FEngine) (e : Z)
    (order order' : list Z) (s : FScene) :
  order ≡ₚ elements (mEntities s) ->
  order' ≡ₚ elements (mEntities (addEntity e s)) ->
  (Z.of_nat (size (mEntities s)) + 1 < 2 ^ SIZE_BITS)%Z ->
  (e ∉ mEntities s) ->
  getRenderableCount engine order'
  = (getRenderableCount engine order
     + (if is_renderable engine e then 1 else 0))%Z
  /\ getLightCount engine order'
     = (getLightCount engine order + (if is_light engine e then 1 else 0))%Z.
Proof.
  intros Hp Hp' Hfit Hfresh.
  assert (Hperm : order' ≡ₚ e :: order).
  { rewrite Hp', Hp. cbn [addEntity with_entities mEntities].
    now apply elements_union_singleton. }
  pose proof (order_length _ _ Hp) as Hlen.
  assert (Hlen' : length order' = S (length order))
    by now rewrite Hperm.
  rewrite !getRenderableCount_spec, !getLightCount_spec by lia.
  rewrite !Hperm, !filter_cons_bool.
  destruct (is_renderable engine e), (is_light engine e); cbn [length];
    split; lia.
Qed.

Lemma counts_after_addEntity_witness :
  getRenderableCount engine_demo [1]%Z
  = (getRenderableCount engine_demo [] + 1)%Z.
Proof.
  destruct (counts_after_addEntity engine_demo 1 [] [1]%Z scene_empty)
    as [Hr _].
  - reflexivity.
  - assert (elements (mEntities (addEntity 1 scene_empty)) = [1]%Z) as ->
      by (vm_compute; reflexivity).
    reflexivity.
  - vm_compute. reflexivity.
  - cbn. apply not_elem_of_empty.
  - exact Hr.
Defined.
